(** * Financial estimator of [src/evaluate.py]

    A shallow embedding of [estimate_financial_results] and of the part of
    the dataframe and metric routines it calls, followed by the properties
    of the estimator.

    Conventions of the embedding.
    - A float is a real number or NaN: [cell := option R], [None] being NaN,
      the marker pandas uses for a missing value.  Floating-point rounding
      error, infinities and overflow are not modelled.
    - Dates, store ids and item ids are integers.
    - A pandas Series is the list of its (index label, value) pairs; a numpy
      array is the list of its values.
    - A Python exception is a value of [Exception]; code that may raise
      returns an [outcome]. *)

From Stdlib Require Import Reals ZArith List Bool Lra Lia.
From Stdlib Require Import Zfloor Sorting.Sorted Sorting.Permutation.
Import ListNotations.

Local Open Scope R_scope.

(** ** Exceptions and outcomes *)

(** The exceptions the library routines called by the estimator raise. *)
Inductive Exception : Type :=
| LengthMismatch      (* pandas: Length of values does not match length of index *)
| DuplicateLabels     (* pandas: cannot reindex on an axis with duplicate labels *)
| InconsistentLength  (* sklearn: inconsistent numbers of samples *)
| InputContainsNaN    (* sklearn: Input contains NaN *)
| NoSamples.          (* sklearn: Found array with 0 sample(s) *)

Inductive outcome (E A : Type) : Type :=
| Return (a : A)
| Raise (e : E).

Arguments Return {E A} a.
Arguments Raise {E A} e.

Definition bind {E A B} (m : outcome E A) (k : A -> outcome E B) : outcome E B :=
  match m with
  | Return a => k a
  | Raise e => Raise e
  end.

Notation "x <- m ;; k" := (bind m (fun x => k))
  (at level 61, m at next level, right associativity).

(** [for x in xs: ys.append(f x)], stopping at the first exception. *)
Fixpoint for_each {E A B} (f : A -> outcome E B) (xs : list A) : outcome E (list B) :=
  match xs with
  | [] => Return []
  | x :: xs' => y <- f x ;; ys <- for_each f xs' ;; Return (y :: ys)
  end.

(** ** Floats *)

Definition cell : Type := option R.

Definition NaN : cell := None.

Definition cell_add (a b : cell) : cell :=
  match a, b with
  | Some x, Some y => Some (x + y)
  | _, _ => NaN
  end.

Definition cell_sub (a b : cell) : cell :=
  match a, b with
  | Some x, Some y => Some (x - y)
  | _, _ => NaN
  end.

Definition cell_mul (a b : cell) : cell :=
  match a, b with
  | Some x, Some y => Some (x * y)
  | _, _ => NaN
  end.

(** [np.expm1]. *)
Definition expm1 (x : R) : R := exp x - 1.

(** [round] of a float: the nearest integer, a tie going to the even one. *)
Definition round_half_even (x : R) : R :=
  let n := Zfloor x in
  let f := x - IZR n in
  if Rlt_dec f (1 / 2) then IZR n
  else if Rlt_dec (1 / 2) f then IZR (n + 1)
  else if Z.even n then IZR n else IZR (n + 1).

Definition round_cell (c : cell) : cell := option_map round_half_even c.

(** A float that holds an integer. *)
Definition integer_valued (c : cell) : Prop := exists z : Z, c = Some (IZR z).

(** [a <= b] on floats; false as soon as one side is NaN. *)
Definition cell_le (a b : cell) : Prop :=
  match a, b with
  | Some x, Some y => x <= y
  | _, _ => False
  end.

(** [Series.sum()]: NaN entries are skipped, the empty sum is 0. *)
Fixpoint nansum (c : list cell) : R :=
  match c with
  | [] => 0
  | Some v :: c' => v + nansum c'
  | None :: c' => nansum c'
  end.

(** The entries of a column that are not NaN. *)
Fixpoint dropna (c : list cell) : list R :=
  match c with
  | [] => []
  | Some v :: c' => v :: dropna c'
  | None :: c' => dropna c'
  end.

(** [Series.mean()]: the mean of the entries that are not NaN, NaN when
    there is none. *)
Definition nanmean (c : list cell) : cell :=
  match dropna c with
  | [] => NaN
  | vs => Some (nansum c / INR (length vs))
  end.

(** The values of a column, when none is NaN. *)
Fixpoint all_finite (c : list cell) : option (list R) :=
  match c with
  | [] => Some []
  | Some v :: c' => option_map (cons v) (all_finite c')
  | None :: _ => None
  end.

Fixpoint Rsum (l : list R) : R :=
  match l with
  | [] => 0
  | x :: l' => x + Rsum l'
  end.

(** [sklearn.metrics.mean_absolute_error]: the inputs are validated
    (same length, no NaN, at least one sample), then the absolute errors
    are averaged. *)
Definition mean_absolute_error (y_true y_pred : list cell) : outcome Exception R :=
  if negb (Nat.eqb (length y_true) (length y_pred)) then Raise InconsistentLength
  else
    match all_finite y_true, all_finite y_pred with
    | Some ts, Some ps =>
        match ts with
        | [] => Raise NoSamples
        | _ => Return (Rsum (map (fun tp => Rabs (snd tp - fst tp)) (combine ts ps))
                       / INR (length ts))
        end
    | _, _ => Raise InputContainsNaN
    end.

(** ** Grouping keys *)

(** [groupby] lists the distinct keys of a frame in increasing order. *)
Section GroupKeys.
Variable K : Type.
Variable eqb ltb : K -> K -> bool.

Fixpoint insert_key (k : K) (ks : list K) : list K :=
  match ks with
  | [] => [k]
  | k' :: ks' =>
      if eqb k k' then ks
      else if ltb k k' then k :: ks
      else k' :: insert_key k ks'
  end.

Definition group_keys (ks : list K) : list K := fold_right insert_key [] ks.

(** [pd.merge(left, right, how='inner', on=key)]: every pair of a left and
    a right row with the same key, in the order of the left frame. *)
Definition merge {A B} (left : list (K * A)) (right : list (K * B)) : list (K * (A * B)) :=
  flat_map
    (fun l => map (fun r => (fst l, (snd l, snd r)))
                  (filter (fun r => eqb (fst l) (fst r)) right))
    left.
End GroupKeys.

Arguments insert_key {K} eqb ltb k ks.
Arguments group_keys {K} eqb ltb ks.
Arguments merge {K} eqb {A B} left right.

Definition pair_eqb (a b : Z * Z) : bool :=
  (fst a =? fst b)%Z && (snd a =? snd b)%Z.

Definition pair_ltb (a b : Z * Z) : bool :=
  (fst a <? fst b)%Z || ((fst a =? fst b)%Z && (snd a <? snd b)%Z).

(** ** Frames *)

(** A row of [data]: its index label and its date, store and item. *)
Record data_row : Type := mk_data_row
  { d_index : Z; d_date : Z; d_store : Z; d_item : Z }.

Definition DataFrame : Type := list data_row.

Definition Series : Type := list (Z * R).

(** What [y_pred] can be: a numpy array (or a list), or a Series. *)
Inductive values : Type :=
| ndarray (v : list R)
| series (s : Series).

(** A row of the working table [financial_results]; its index is the
    position of the row. *)
Record row : Type := mk_row
  { date : Z; store : Z; item : Z; sales : cell; predictions : cell }.

Definition range_index (n : nat) : list Z := map Z.of_nat (seq 0 n).

(** [s.reset_index(drop=True)]: the labels become 0, 1, ... *)
Definition reset_index_drop (s : Series) : Series :=
  combine (range_index (length s)) (map snd s).

Definition series_map (f : R -> R) (s : Series) : Series :=
  map (fun e => (fst e, f (snd e))) s.

Definition values_map (f : R -> R) (v : values) : values :=
  match v with
  | ndarray l => ndarray (map f l)
  | series s => series (series_map f s)
  end.

Fixpoint unique_labels (ls : list Z) : bool :=
  match ls with
  | [] => true
  | l :: ls' => negb (existsb (Z.eqb l) ls') && unique_labels ls'
  end.

Definition lookup_label (s : Series) (l : Z) : cell :=
  match find (fun e => (fst e =? l)%Z) s with
  | Some e => Some (snd e)
  | None => NaN
  end.

(** [frame[col] = v] on a frame of [n] rows whose index is 0 .. n-1.
    An array must have [n] entries and is taken by position.  A Series is
    aligned on its labels: row [i] receives the entry labelled [i], NaN
    when there is none, and entries with other labels are dropped. *)
Definition set_column (n : nat) (v : values) : outcome Exception (list cell) :=
  match v with
  | ndarray l =>
      if Nat.eqb (length l) n then Return (map Some l) else Raise LengthMismatch
  | series s =>
      if unique_labels (map fst s)
      then Return (map (lookup_label s) (range_index n))
      else Raise DuplicateLabels
  end.

Fixpoint attach (keys : list data_row) (s p : list cell) : list row :=
  match keys, s, p with
  | k :: keys', x :: s', y :: p' =>
      mk_row (d_date k) (d_store k) (d_item k) x y :: attach keys' s' p'
  | _, _, _ => []
  end.

(** Lines 24-26: the working table. *)
Definition financial_results (data : DataFrame) (y_true : Series) (y_pred : values)
  : outcome Exception (list row) :=
  let n := length data in
  sales_col <- set_column n (series (series_map expm1 (reset_index_drop y_true))) ;;
  predictions_col <- set_column n (values_map expm1 y_pred) ;;
  Return (attach data sales_col predictions_col).

(** ** The estimator *)

(** The seven numeric columns of a result row.  The per-store-item table
    names its error column [MAE], the other two tables [Daily MAE]. *)
Record metrics : Type := mk_metrics
  { total_predicted_sales : cell;
    average_predicted_sales : cell;
    MAE : cell;
    worst_average_scenario : cell;
    best_average_scenario : cell;
    worst_total_scenario : cell;
    best_total_scenario : cell }.

(** [round(frame)] on the numeric columns of a row. *)
Definition round_metrics (m : metrics) : metrics :=
  mk_metrics
    (round_cell (total_predicted_sales m))
    (round_cell (average_predicted_sales m))
    (round_cell (MAE m))
    (round_cell (worst_average_scenario m))
    (round_cell (best_average_scenario m))
    (round_cell (worst_total_scenario m))
    (round_cell (best_total_scenario m)).

(** [rows.groupby(['date'])[['sales', 'predictions']].sum().reset_index()]:
    one line per distinct date, with the sums of both columns. *)
Definition groupby_date_sum (rows : list row) : list (Z * (R * R)) :=
  map (fun d =>
         let g := filter (fun r => (date r =? d)%Z) rows in
         (d, (nansum (map sales g), nansum (map predictions g))))
      (group_keys Z.eqb Z.ltb (map date rows)).

(** Lines 44-45 and 94-95: the MAE between the day sums of sales and of
    predictions. *)
Definition daily_mae (rows : list row) : outcome Exception R :=
  let daily_pred_sales := groupby_date_sum rows in
  mean_absolute_error
    (map (fun d => Some (fst (snd d))) daily_pred_sales)
    (map (fun d => Some (snd (snd d))) daily_pred_sales).

(** Lines 38-53 for the rows of one store and lines 90-103 for all rows:
    the same computation, written twice in the source. *)
Definition scenarios (rows : list row) : outcome Exception metrics :=
  let sum_pred := nansum (map predictions rows) in
  let avg_pred := sum_pred / 93 in
  mae <- daily_mae rows ;;
  let worst_scenario_avg := avg_pred - mae in
  let best_scenario_avg := avg_pred + mae in
  let worst_scenario_total := sum_pred - mae * 93 in
  let best_scenario_total := sum_pred + mae * 93 in
  Return (mk_metrics (Some sum_pred) (Some avg_pred) (Some mae)
            (Some worst_scenario_avg) (Some best_scenario_avg)
            (Some worst_scenario_total) (Some best_scenario_total)).

(** [range(1, 11)]. *)
Definition store_ids : list Z := map Z.of_nat (seq 1 10).

Definition store_i_data (fr : list row) (store_id : Z) : list row :=
  filter (fun r => (store r =? store_id)%Z) fr.

(** Lines 28-71. *)
Definition stores_results (fr : list row) : outcome Exception (list (Z * metrics)) :=
  results_stores <-
    for_each (fun store_id => m <- scenarios (store_i_data fr store_id) ;;
                              Return (store_id, m))
             store_ids ;;
  Return (map (fun r => (fst r, round_metrics (snd r))) results_stores).

Definition store_item (r : row) : Z * Z := (store r, item r).

Definition group_rows (fr : list row) (k : Z * Z) : list row :=
  filter (fun r => pair_eqb (store_item r) k) fr.

(** The groups of [fr.groupby(['store', 'item'])], in key order. *)
Definition store_item_keys (fr : list row) : list (Z * Z) :=
  group_keys pair_eqb pair_ltb (map store_item fr).

(** Line 74. *)
Definition sum_pred_items (fr : list row) : list (Z * Z * cell) :=
  map (fun k => (k, Some (nansum (map predictions (group_rows fr k)))))
      (store_item_keys fr).

(** Line 75. *)
Definition avg_pred_items (fr : list row) : list (Z * Z * cell) :=
  map (fun k => (k, nanmean (map predictions (group_rows fr k))))
      (store_item_keys fr).

(** Line 76: the function given to [apply] sees the rows of one group. *)
Definition mae_items (fr : list row) : outcome Exception (list (Z * Z * cell)) :=
  for_each (fun k =>
              let x := group_rows fr k in
              m <- mean_absolute_error (map sales x) (map predictions x) ;;
              Return (k, Some m))
           (store_item_keys fr).

(** Lines 79-82 on one merged row. *)
Definition items_row (r : Z * Z * (cell * cell * cell)) : Z * Z * metrics :=
  let total := fst (fst (snd r)) in
  let avg := snd (fst (snd r)) in
  let mae := snd (snd r) in
  (fst r,
   mk_metrics total avg mae
     (cell_sub avg mae) (cell_add avg mae)
     (cell_sub total (cell_mul mae (Some 93)))
     (cell_add total (cell_mul mae (Some 93)))).

(** Lines 73-86. *)
Definition items_results (fr : list row) : outcome Exception (list (Z * Z * metrics)) :=
  let sums := sum_pred_items fr in
  let avgs := avg_pred_items fr in
  maes <- mae_items fr ;;
  let sum_avg := merge pair_eqb sums avgs in
  let merged := merge pair_eqb sum_avg maes in
  Return (map (fun r => (fst r, round_metrics (snd r))) (map items_row merged)).

(** Lines 89-117. *)
Definition overall_results_df (fr : list row) : outcome Exception (list metrics) :=
  m <- scenarios fr ;;
  Return (map round_metrics [m]).

(** The returned frame; the three branches build frames with different
    key columns. *)
Inductive table : Type :=
| OverallResults (rows : list metrics)
| StoresResults (rows : list (Z * metrics))
| ItemsResults (rows : list (Z * Z * metrics)).

Definition n_rows (t : table) : nat :=
  match t with
  | OverallResults rows => length rows
  | StoresResults rows => length rows
  | ItemsResults rows => length rows
  end.

Definition metrics_of (t : table) : list metrics :=
  match t with
  | OverallResults rows => rows
  | StoresResults rows => map snd rows
  | ItemsResults rows => map snd rows
  end.

(** The body of the [try] block. *)
Definition try_body (data : DataFrame) (y_true : Series) (y_pred : values)
    (per_store per_store_item : bool) : outcome Exception table :=
  fr <- financial_results data y_true y_pred ;;
  if per_store then
    rows <- stores_results fr ;; Return (StoresResults rows)
  else if per_store_item then
    rows <- items_results fr ;; Return (ItemsResults rows)
  else
    rows <- overall_results_df fr ;; Return (OverallResults rows).

(** Modelled from the spec: the class [CustomException] is defined outside
    [src/]; the spec describes it as a single generic error that carries the
    original cause. *)
Inductive CustomException : Type :=
| CustomException_from (cause : Exception).

(** Lines 23 and 119-120: [try: ... except Exception as e: raise
    CustomException(e, sys)]. *)
Definition try_except {A} (body : outcome Exception A) : outcome CustomException A :=
  match body with
  | Return a => Return a
  | Raise e => Raise (CustomException_from e)
  end.

Definition estimate_financial_results (data : DataFrame) (y_true : Series)
    (y_pred : values) (per_store per_store_item : bool)
  : outcome CustomException table :=
  try_except (try_body data y_true y_pred per_store per_store_item).

(** ** Vocabulary of the properties *)

(** The key of a row of [data] in the per-store-item table. *)
Definition data_store_item (r : data_row) : Z * Z := (d_store r, d_item r).

(** Worst <= point estimate <= best, for the daily and the total triple. *)
Definition scenario_ordered (m : metrics) : Prop :=
  cell_le (worst_average_scenario m) (average_predicted_sales m) /\
  cell_le (average_predicted_sales m) (best_average_scenario m) /\
  cell_le (worst_total_scenario m) (total_predicted_sales m) /\
  cell_le (total_predicted_sales m) (best_total_scenario m).

(** [z] is the integer nearest to [x], the even one of the two when [x] is
    half way between them. *)
Definition rounds_to (x : R) (z : Z) : Prop :=
  Rabs (x - IZR z) <= 1 / 2 /\
  (Rabs (x - IZR z) = 1 / 2 -> Z.even z = true).

Definition rounded_from (raw res : cell) : Prop :=
  exists x z, raw = Some x /\ res = Some (IZR z) /\ rounds_to x z.

Definition row_rounded_from (raw res : metrics) : Prop :=
  rounded_from (total_predicted_sales raw) (total_predicted_sales res) /\
  rounded_from (average_predicted_sales raw) (average_predicted_sales res) /\
  rounded_from (MAE raw) (MAE res) /\
  rounded_from (worst_average_scenario raw) (worst_average_scenario res) /\
  rounded_from (best_average_scenario raw) (best_average_scenario res) /\
  rounded_from (worst_total_scenario raw) (worst_total_scenario res) /\
  rounded_from (best_total_scenario raw) (best_total_scenario res).

(** A result row before rounding, from its total, its average and its MAE. *)
Definition scenario_metrics (total avg mae : R) : metrics :=
  mk_metrics (Some total) (Some avg) (Some mae)
    (Some (avg - mae)) (Some (avg + mae))
    (Some (total - mae * 93)) (Some (total + mae * 93)).

(** The MAE of a set of rows taken row by row, 0 where the metric raises. *)
Definition row_mae (x : list row) : R :=
  match mean_absolute_error (map sales x) (map predictions x) with
  | Return m => m
  | Raise _ => 0
  end.

(** The row the per-store-item branch builds for one group, before
    rounding. *)
Definition items_metrics (x : list row) : metrics :=
  snd (items_row ((0%Z, 0%Z),
                  (Some (nansum (map predictions x)),
                   nanmean (map predictions x),
                   Some (row_mae x)))).

(** Every row of a returned table is the rounding of a row of the shape
    [scenario_metrics] with a non-negative MAE. *)
Definition row_shape (m : metrics) : Prop :=
  exists total avg mae,
    0 <= mae /\ m = round_metrics (scenario_metrics total avg mae).

(** The reported MAE of a row is the day-grouped MAE of [rows]. *)
Definition mae_is_daily (rows : list row) (m : metrics) : Prop :=
  exists d, daily_mae rows = Return d /\ MAE m = round_cell (Some d).

(** The reported MAE of a row is the MAE of [rows] taken row by row. *)
Definition mae_is_rowwise (rows : list row) (m : metrics) : Prop :=
  exists e,
    mean_absolute_error (map sales rows) (map predictions rows) = Return e /\
    MAE m = round_cell (Some e).

(** The reported MAE of every row of a table is the day-grouped MAE of the
    rows the table row stands for. *)
Definition mae_daily_everywhere (fr : list row) (t : table) : Prop :=
  match t with
  | OverallResults rows => Forall (mae_is_daily fr) rows
  | StoresResults rows =>
      Forall (fun r => mae_is_daily (store_i_data fr (fst r)) (snd r)) rows
  | ItemsResults rows =>
      Forall (fun r => mae_is_daily (group_rows fr (fst r)) (snd r)) rows
  end.


(** The absolute error of one row, 0 when a side is NaN. *)
Definition abs_err (r : row) : R :=
  match sales r, predictions r with
  | Some s, Some p => Rabs (p - s)
  | _, _ => 0
  end.

(** The values of [y_pred], in order. *)
Definition values_list (v : values) : list R :=
  match v with
  | ndarray l => l
  | series s => map snd s
  end.

(** The column obtained from input values taken by position:
    [exp v - 1] of the first value for the first row, and so on. *)
Definition positional (v : list R) : list cell :=
  map (fun x => Some (expm1 x)) v.

(** ** Sample inputs *)

(** One store/item pair on two dates; true log-values 0 and 0, predicted
    log-values ln 2 and ln 2. *)
Definition example_data : DataFrame :=
  [mk_data_row 0 1 1 1; mk_data_row 1 2 1 1].

Definition example_true : Series := [(0%Z, 0); (1%Z, 0)].

Definition example_pred : values := ndarray [ln 2; ln 2].

Definition example_table : table :=
  OverallResults
    [mk_metrics (Some 2) (Some 0) (Some 1) (Some (-1)) (Some 1)
       (Some (-91)) (Some 95)].

(** One store/item pair with two rows on the same date: sales 0 and 2,
    predictions 1 and 1. *)
Definition same_day_data : DataFrame :=
  [mk_data_row 0 1 1 1; mk_data_row 1 1 1 1].

Definition same_day_true : Series := [(0%Z, 0); (1%Z, ln 3)].

Definition same_day_pred : values := ndarray [ln 2; ln 2].

Definition same_day_fr : list row :=
  [mk_row 1 1 1 (Some (expm1 0)) (Some (expm1 (ln 2)));
   mk_row 1 1 1 (Some (expm1 (ln 3))) (Some (expm1 (ln 2)))].

Definition same_day_table : table :=
  ItemsResults
    [((1%Z, 1%Z),
      mk_metrics (Some 2) (Some 1) (Some 1) (Some 0) (Some 2)
        (Some (-91)) (Some 95))].

(** One store/item pair with a single row: sales 93, prediction 93. *)
Definition single_row_data : DataFrame := [mk_data_row 0 1 1 1].

Definition single_row_true : Series := [(0%Z, ln 94)].

Definition single_row_pred : values := ndarray [ln 94].

Definition single_row_fr : list row :=
  [mk_row 1 1 1 (Some (expm1 (ln 94))) (Some (expm1 (ln 94)))].

Definition single_row_table : table :=
  ItemsResults
    [((1%Z, 1%Z),
      mk_metrics (Some 93) (Some 93) (Some 0) (Some 93) (Some 93)
        (Some 93) (Some 93))].

(** Predictions given as a Series whose labels are not the positions: the
    value ln 2 is labelled 1 and the value 0 is labelled 0. *)
Definition relabelled_pred : values := series [(1%Z, ln 2); (0%Z, 0)].

(** ** Further vocabulary *)

(** A row of the working table without NaN. *)
Definition finite_row (r : row) : Prop :=
  (exists s, sales r = Some s) /\ (exists p, predictions r = Some p).

(** The store of the row is one the per-store loop visits. *)
Definition visited_store (r : row) : bool :=
  (1 <=? store r)%Z && (store r <=? 10)%Z.

(** The keys of a per-store-item table increase strictly, stores first. *)
Definition keys_increasing (rows : list (Z * Z * metrics)) : Prop :=
  StronglySorted (fun a b => pair_ltb a b = true) (map fst rows).

(** Ten stores observed once each, on the same date, for item 1. *)
Definition ten_stores_data : DataFrame :=
  map (fun s => mk_data_row s 1 s 1) [1; 2; 3; 4; 5; 6; 7; 8; 9; 10]%Z.

Definition ten_stores_true : Series :=
  map (fun s => (s, 0)) [1; 2; 3; 4; 5; 6; 7; 8; 9; 10]%Z.

Definition ten_stores_pred : values :=
  ndarray [0; 0; 0; 0; 0; 0; 0; 0; 0; 0].

(** A row whose prediction is its sales value. *)
Definition perfect_row (r : row) : Prop := sales r = predictions r.

(** A result row without error: MAE 0 and both scenario bands reduced to
    the point estimate. *)
Definition collapsed (m : metrics) : Prop :=
  MAE m = Some 0 /\
  worst_average_scenario m = average_predicted_sales m /\
  best_average_scenario m = average_predicted_sales m /\
  worst_total_scenario m = total_predicted_sales m /\
  best_total_scenario m = total_predicted_sales m.

(** The number a float column holds, 0 for NaN. *)
Definition cell_value (c : cell) : R :=
  match c with
  | Some v => v
  | None => 0
  end.


(** The key of a row of [data], and of a row of the working table. *)
Definition data_key (d : data_row) : Z * Z * Z := (d_date d, d_store d, d_item d).

Definition row_key (r : row) : Z * Z * Z := (date r, store r, item r).

(** * The forecast plots of [src/feature.py]

    [plot_sales_forecast_items_stores] draws, for each item from 1 to 50,
    one line per store on the subplot of the item, and collects the legend
    entries while it draws item 1.  The drawing calls are modelled by what
    they are given: the subplot a line goes to, its label and its rows. *)

(** A row of [actual_pred_data]: its index label (the x value of the
    plot), its item and store, and the two attached columns. *)
Record plot_row : Type := mk_plot_row
  { x_label : Z; p_item : Z; p_store : Z; actual : cell; pred : cell }.

(** Lines 109-110. *)
Definition row_index (i : Z) : Z := ((i - 1) / 5)%Z.

Definition col_index (i : Z) : Z := ((i - 1) mod 5)%Z.

(** [Series.unique()]: the distinct values, in order of first appearance. *)
Fixpoint unique (l : list Z) : list Z :=
  match l with
  | [] => []
  | x :: l' => x :: filter (fun y => negb (y =? x)%Z) (unique l')
  end.

(** One call of [sns.lineplot]: the store of the label and the rows
    given as [data]. *)
Record line : Type := mk_line { line_store : Z; line_data : list plot_row }.

(** One subplot: its place in the grid, the item of its title and the
    lines drawn on it, in drawing order. *)
Record subplot : Type := mk_subplot
  { sp_row : Z; sp_col : Z; sp_item : Z; sp_lines : list line }.

(** Lines 116-121: one turn of the loop over the stores of item [i]; the
    state is the lines drawn so far on the subplot and the legend labels. *)
Definition draw_store (i : Z) (item_i_actual_pred : list plot_row)
    (st : list line * list Z) (store : Z) : list line * list Z :=
  let store_data :=
    filter (fun r => (p_store r =? store)%Z) item_i_actual_pred in
  (fst st ++ [mk_line store store_data],
   if (i =? 1)%Z then snd st ++ [store] else snd st).

(** Lines 105-128: one turn of the loop over the items; the state is the
    subplots drawn so far and the legend labels. *)
Definition draw_item (actual_pred_data : list plot_row)
    (st : list subplot * list Z) (i : Z) : list subplot * list Z :=
  let item_i_actual_pred :=
    filter (fun r => (p_item r =? i)%Z) actual_pred_data in
  let drawn :=
    fold_left (draw_store i item_i_actual_pred)
      (unique (map p_store item_i_actual_pred)) ([], snd st) in
  (fst st ++ [mk_subplot (row_index i) (col_index i) i (fst drawn)],
   snd drawn).

(** [range(1, 51)]. *)
Definition item_ids : list Z := map Z.of_nat (seq 1 50).

(** Lines 101-128: the subplots drawn and the legend labels collected. *)
Definition plot_plan (actual_pred_data : list plot_row)
  : list subplot * list Z :=
  fold_left (draw_item actual_pred_data) item_ids ([], []).

(** Two items, the first sold in stores 2 and 1, the second in store 1. *)
Definition sample_plot_data : list plot_row :=
  [mk_plot_row 0 1 2 (Some 3) (Some 4);
   mk_plot_row 0 1 1 (Some 1) (Some 2);
   mk_plot_row 1 1 2 (Some 5) (Some 4);
   mk_plot_row 0 7 1 (Some 2) (Some 2)].

(** The line of store 2 on the subplot of item 1 of the sample. *)
Definition sample_line : line :=
  mk_line 2 [mk_plot_row 0 1 2 (Some 3) (Some 4);
             mk_plot_row 1 1 2 (Some 5) (Some 4)].

Definition sample_subplot : subplot :=
  mk_subplot 0 0 1
    [sample_line; mk_line 1 [mk_plot_row 0 1 1 (Some 1) (Some 2)]].

(** The rows a branch computes from the working table [fr], before the
    final [round]: the dictionaries appended by the loop of lines 33-65,
    the merged frame with its scenario columns of lines 74-82, or the
    single row of lines 90-113. *)
Definition computed_rows (fr : list row) (per_store per_store_item : bool)
    (raws : list metrics) : Prop :=
  match per_store, per_store_item with
  | true, _ =>
      Forall2 (fun store_id raw =>
                 scenarios (store_i_data fr store_id) = Return raw)
              store_ids raws
  | false, true =>
      exists maes,
        mae_items fr = Return maes /\
        raws = map (fun r => snd (items_row r))
                   (merge pair_eqb
                      (merge pair_eqb (sum_pred_items fr) (avg_pred_items fr))
                      maes)
  | false, false =>
      exists m, scenarios fr = Return m /\ raws = [m]
  end.

(** Three store/item pairs, given in decreasing order of their keys. *)
Definition unsorted_data : DataFrame :=
  [mk_data_row 0 1 2 1; mk_data_row 1 1 1 2; mk_data_row 2 1 1 1].

Definition unsorted_true : Series := [(0%Z, 0); (1%Z, 0); (2%Z, 0)].

Definition unsorted_pred : values := ndarray [0; 0; 0].

(** * Properties *)

(** ** Rounding *)

Lemma round_half_even_integer (x : R) :
  exists z : Z, round_half_even x = IZR z.
Proof.
  unfold round_half_even.
  destruct (Rlt_dec _ _); [eauto|].
  destruct (Rlt_dec _ _); [eauto|].
  destruct (Z.even _); eauto.
Qed.

Lemma round_half_even_bounds (x : R) :
  IZR (Zfloor x) <= round_half_even x <= IZR (Zfloor x) + 1.
Proof.
  unfold round_half_even.
  repeat destruct (Rlt_dec _ _); try destruct (Z.even _);
    rewrite ?plus_IZR; lra.
Qed.

(** Rounding is monotone: it keeps the order of the values it is given. *)
Lemma round_half_even_mono (x y : R) :
  x <= y -> round_half_even x <= round_half_even y.
Proof.
  intros Hxy.
  pose proof (Zfloor_le x y Hxy) as Hfl.
  destruct (Z.eq_dec (Zfloor x) (Zfloor y)) as [E | NE].
  - unfold round_half_even. rewrite <- E.
    repeat destruct (Rlt_dec _ _); try destruct (Z.even _);
      rewrite ?plus_IZR; lra.
  - assert (Zfloor x + 1 <= Zfloor y)%Z as Hlt by lia.
    apply IZR_le in Hlt. rewrite plus_IZR in Hlt.
    pose proof (round_half_even_bounds x).
    pose proof (round_half_even_bounds y).
    lra.
Qed.

(** A value closer than one half to an integer rounds to it. *)
Lemma round_half_even_near (x : R) (z : Z) :
  IZR z - 1 / 2 < x < IZR z + 1 / 2 -> round_half_even x = IZR z.
Proof.
  intros [Hlo Hhi].
  pose proof (Zfloor_bound x) as [Hf1 Hf2].
  destruct (Rle_dec (IZR z) x) as [Hge | Hlt].
  - assert (Zfloor x = z) as E by (apply Zfloor_eq; lra).
    unfold round_half_even. rewrite E.
    destruct (Rlt_dec _ _); [reflexivity | lra].
  - assert (Zfloor x = (z - 1)%Z) as E
        by (apply Zfloor_eq; rewrite minus_IZR; lra).
    unfold round_half_even. rewrite E.
    destruct (Rlt_dec _ _); [rewrite minus_IZR in *; lra|].
    destruct (Rlt_dec _ _); [f_equal; lia | rewrite minus_IZR in *; lra].
Qed.

Lemma round_half_even_IZR (z : Z) : round_half_even (IZR z) = IZR z.
Proof. apply round_half_even_near; lra. Qed.

Lemma round_cell_integer (x : R) : integer_valued (round_cell (Some x)).
Proof.
  destruct (round_half_even_integer x) as [z Hz].
  exists z. simpl. now rewrite Hz.
Qed.

Lemma round_cell_le (x y : R) :
  x <= y -> cell_le (round_cell (Some x)) (round_cell (Some y)).
Proof. intros H. simpl. now apply round_half_even_mono. Qed.

(** ** The error metric *)

Lemma Rsum_abs_nonneg (l : list (R * R)) :
  0 <= Rsum (map (fun tp => Rabs (snd tp - fst tp)) l).
Proof.
  induction l as [| a l IH]; simpl; [lra|].
  pose proof (Rabs_pos (snd a - fst a)). lra.
Qed.

Lemma mean_absolute_error_nonneg (yt yp : list cell) (m : R) :
  mean_absolute_error yt yp = Return m -> 0 <= m.
Proof.
  unfold mean_absolute_error.
  destruct (negb _); [discriminate|].
  destruct (all_finite yt) as [ts|]; [|discriminate].
  destruct (all_finite yp) as [ps|]; [|discriminate].
  destruct ts as [| t ts]; [discriminate|].
  intros [= <-].
  apply Rmult_le_pos; [apply Rsum_abs_nonneg|].
  apply Rlt_le, Rinv_0_lt_compat.
  apply (lt_0_INR (length (t :: ts))). simpl. lia.
Qed.

Lemma all_finite_Some (l : list R) : all_finite (map Some l) = Some l.
Proof. induction l as [| x l IH]; simpl; [reflexivity | now rewrite IH]. Qed.

Lemma all_finite_map_Some {A} (f : A -> R) (l : list A) :
  all_finite (map (fun a => Some (f a)) l) = Some (map f l).
Proof. induction l as [| a l IH]; simpl; [reflexivity | now rewrite IH]. Qed.

Lemma all_finite_dropna (c : list cell) (vs : list R) :
  all_finite c = Some vs -> dropna c = vs /\ length vs = length c.
Proof.
  revert vs. induction c as [| [v|] c IH]; simpl; intros vs H.
  - injection H as <-. now split.
  - destruct (all_finite c) as [ws|]; [|discriminate].
    injection H as <-. destruct (IH ws eq_refl) as [-> <-]. now split.
  - discriminate.
Qed.

(** ** Outcomes *)

Lemma bind_Return {E A B} (m : outcome E A) (k : A -> outcome E B) (b : B) :
  bind m k = Return b -> exists a, m = Return a /\ k a = Return b.
Proof. destruct m as [a | e]; simpl; [eauto | discriminate]. Qed.

Lemma for_each_length {E A B} (f : A -> outcome E B) (xs : list A) (ys : list B) :
  for_each f xs = Return ys -> length ys = length xs.
Proof.
  revert ys. induction xs as [| x xs IH]; simpl; intros ys H.
  - now injection H as <-.
  - apply bind_Return in H as (y & _ & H).
    apply bind_Return in H as (ys' & H' & H).
    injection H as <-. simpl. f_equal. now apply IH.
Qed.

Lemma for_each_Forall2 {E A B} (f : A -> outcome E B) (xs : list A) (ys : list B) :
  for_each f xs = Return ys -> Forall2 (fun x y => f x = Return y) xs ys.
Proof.
  revert ys. induction xs as [| x xs IH]; simpl; intros ys H.
  - injection H as <-. constructor.
  - apply bind_Return in H as (y & Hy & H).
    apply bind_Return in H as (ys' & H' & H).
    injection H as <-. constructor; auto.
Qed.

Lemma for_each_Raise {E A B} (f : A -> outcome E B) (xs : list A) (x : A) (e : E) :
  In x xs -> f x = Raise e -> exists e', for_each f xs = Raise e'.
Proof.
  induction xs as [| a xs IH]; simpl; [tauto|].
  intros [-> | Hin] Hx.
  - rewrite Hx. simpl. eauto.
  - destruct (f a) as [y | e0]; simpl; [|eauto].
    destruct (IH Hin Hx) as [e' ->]. simpl. eauto.
Qed.

(** ** Grouping keys: distinct and complete *)

Section GroupKeysFacts.
Variable K : Type.
Variable eqb ltb : K -> K -> bool.
Hypothesis eqb_eq : forall a b, eqb a b = true <-> a = b.
Hypothesis ltb_irrefl : forall a, ltb a a = false.
Hypothesis ltb_trans :
  forall a b c, ltb a b = true -> ltb b c = true -> ltb a c = true.
Hypothesis ltb_total :
  forall a b, eqb a b = false -> ltb a b = false -> ltb b a = true.

Let lt (a b : K) : Prop := ltb a b = true.

Lemma insert_key_In (k x : K) (ks : list K) :
  In x (insert_key eqb ltb k ks) <-> x = k \/ In x ks.
Proof.
  induction ks as [| k' ks IH]; simpl.
  - intuition.
  - destruct (eqb k k') eqn:E.
    + apply eqb_eq in E. subst k'. simpl. intuition.
    + destruct (ltb k k'); simpl; [intuition|].
      rewrite IH. intuition.
Qed.

Lemma group_keys_In (x : K) (ks : list K) :
  In x (group_keys eqb ltb ks) <-> In x ks.
Proof.
  induction ks as [| k ks IH]; simpl; [tauto|].
  rewrite insert_key_In, IH. intuition.
Qed.

Lemma insert_key_sorted (k : K) (ks : list K) :
  StronglySorted lt ks -> StronglySorted lt (insert_key eqb ltb k ks).
Proof.
  induction ks as [| k' ks IH]; simpl; intros Hs.
  - repeat constructor.
  - destruct (eqb k k') eqn:E; [exact Hs|].
    inversion Hs as [| ? ? Hs' Hall]; subst.
    destruct (ltb k k') eqn:L.
    + constructor; [exact Hs|].
      constructor; [exact L|].
      eapply Forall_impl; [|exact Hall].
      intros c Hc. exact (ltb_trans _ _ _ L Hc).
    + constructor; [auto|].
      apply Forall_forall. intros x Hx.
      apply insert_key_In in Hx as [-> | Hx].
      * now apply ltb_total.
      * rewrite Forall_forall in Hall. now apply Hall.
Qed.

Lemma group_keys_sorted (ks : list K) :
  StronglySorted lt (group_keys eqb ltb ks).
Proof.
  induction ks as [| k ks IH]; simpl; [constructor|].
  now apply insert_key_sorted.
Qed.

Lemma sorted_NoDup (ks : list K) : StronglySorted lt ks -> NoDup ks.
Proof.
  induction 1 as [| k ks Hs IH Hall]; constructor; [|exact IH].
  intros Hin. rewrite Forall_forall in Hall.
  specialize (Hall k Hin). unfold lt in Hall.
  rewrite ltb_irrefl in Hall. discriminate.
Qed.

Lemma group_keys_NoDup (ks : list K) : NoDup (group_keys eqb ltb ks).
Proof. apply sorted_NoDup, group_keys_sorted. Qed.
End GroupKeysFacts.

Section MergeFacts.
Variable K : Type.
Variable eqb : K -> K -> bool.
Hypothesis eqb_eq : forall a b, eqb a b = true <-> a = b.

(** In a frame with one row per key, a key selects its own row. *)
Lemma filter_own_key {B} (g : K -> B) (ks : list K) (k : K) :
  NoDup ks -> In k ks ->
  filter (fun r => eqb k (fst r)) (map (fun k' => (k', g k')) ks) = [(k, g k)].
Proof.
  induction ks as [| k' ks IH]; simpl; [tauto|].
  intros Hnd Hin. inversion Hnd as [| ? ? Hnotin Hnd']; subst.
  destruct (eqb k k') eqn:E.
  - apply eqb_eq in E. subst k'. f_equal.
    clear IH Hin Hnd. induction ks as [| c ks IH]; simpl; [reflexivity|].
    destruct (eqb k c) eqn:E.
    + apply eqb_eq in E. subst c. exfalso. apply Hnotin. now left.
    + inversion Hnd'; subst. apply IH; auto.
      intros H. apply Hnotin. now right.
  - destruct Hin as [-> | Hin]; [|now apply IH].
    assert (eqb k k = true) as E' by now apply eqb_eq.
    congruence.
Qed.

(** Merging two frames that have one row per key, with the same keys in
    the same order, puts the rows side by side. *)
Lemma merge_same_keys {A B} (f : K -> A) (g : K -> B) (ks : list K) :
  NoDup ks ->
  merge eqb (map (fun k => (k, f k)) ks) (map (fun k => (k, g k)) ks)
  = map (fun k => (k, (f k, g k))) ks.
Proof.
  intros Hnd. unfold merge.
  assert (forall sub, incl sub ks ->
            flat_map
              (fun l => map (fun r => (fst l, (snd l, snd r)))
                 (filter (fun r => eqb (fst l) (fst r))
                    (map (fun k => (k, g k)) ks)))
              (map (fun k => (k, f k)) sub)
            = map (fun k => (k, (f k, g k))) sub) as Hsub.
  { induction sub as [| k sub IH]; simpl; intros Hincl; [reflexivity|].
    rewrite filter_own_key by (auto; apply Hincl; now left).
    simpl. f_equal. apply IH.
    intros x Hx. apply Hincl. now right. }
  apply Hsub, incl_refl.
Qed.
End MergeFacts.

Lemma pair_eqb_eq (a b : Z * Z) : pair_eqb a b = true <-> a = b.
Proof.
  destruct a as [a1 a2], b as [b1 b2]. unfold pair_eqb. simpl.
  rewrite andb_true_iff, !Z.eqb_eq. split.
  - intros [-> ->]. reflexivity.
  - intros [= -> ->]. now split.
Qed.

Lemma pair_ltb_irrefl (a : Z * Z) : pair_ltb a a = false.
Proof.
  unfold pair_ltb. rewrite !Z.ltb_irrefl, andb_false_r. reflexivity.
Qed.

Lemma pair_ltb_trans (a b c : Z * Z) :
  pair_ltb a b = true -> pair_ltb b c = true -> pair_ltb a c = true.
Proof.
  unfold pair_ltb.
  rewrite !orb_true_iff, !andb_true_iff, !Z.ltb_lt, !Z.eqb_eq. lia.
Qed.

Lemma pair_ltb_total (a b : Z * Z) :
  pair_eqb a b = false -> pair_ltb a b = false -> pair_ltb b a = true.
Proof.
  unfold pair_eqb, pair_ltb.
  rewrite !orb_true_iff, !andb_true_iff, !orb_false_iff, !andb_false_iff,
    !Z.ltb_lt, !Z.eqb_eq, !Z.ltb_ge, !Z.eqb_neq. lia.
Qed.

Lemma store_item_keys_NoDup (fr : list row) : NoDup (store_item_keys fr).
Proof.
  apply (group_keys_NoDup _ pair_eqb pair_ltb).
  - exact pair_eqb_eq.
  - exact pair_ltb_irrefl.
  - exact pair_ltb_trans.
  - exact pair_ltb_total.
Qed.

Lemma store_item_keys_In (fr : list row) (k : Z * Z) :
  In k (store_item_keys fr) <-> In k (map store_item fr).
Proof. apply group_keys_In, pair_eqb_eq. Qed.

(** ** Shape of the result rows *)

Lemma daily_mae_nonneg (rows : list row) (mae : R) :
  daily_mae rows = Return mae -> 0 <= mae.
Proof. apply mean_absolute_error_nonneg. Qed.

Lemma scenarios_Return (rows : list row) (m : metrics) :
  scenarios rows = Return m ->
  exists mae,
    daily_mae rows = Return mae /\ 0 <= mae /\
    m = scenario_metrics (nansum (map predictions rows))
          (nansum (map predictions rows) / 93) mae.
Proof.
  unfold scenarios. intros H.
  apply bind_Return in H as (mae & Hmae & H).
  injection H as <-. exists mae.
  repeat split; [exact Hmae | now apply (daily_mae_nonneg rows)].
Qed.

Lemma nanmean_all_finite (c : list cell) (vs : list R) :
  all_finite c = Some vs -> c <> [] ->
  nanmean c = Some (nansum c / INR (length c)).
Proof.
  intros Hfin Hne.
  destruct (all_finite_dropna c vs Hfin) as [Hd Hl].
  unfold nanmean. rewrite Hd, <- Hl.
  destruct vs as [| v vs]; [|reflexivity].
  destruct c; [congruence | discriminate].
Qed.

Lemma mean_absolute_error_Return (yt yp : list cell) (m : R) :
  mean_absolute_error yt yp = Return m ->
  exists ts ps, all_finite yt = Some ts /\ all_finite yp = Some ps /\
                ts <> [] /\ length yt = length yp.
Proof.
  unfold mean_absolute_error.
  destruct (Nat.eqb (length yt) (length yp)) eqn:El; simpl; [|discriminate].
  apply Nat.eqb_eq in El.
  destruct (all_finite yt) as [ts|]; [|discriminate].
  destruct (all_finite yp) as [ps|]; [|discriminate].
  destruct ts as [| t ts]; [discriminate|].
  intros _. exists (t :: ts), ps. repeat split; auto. discriminate.
Qed.

Lemma mae_items_Return_gen (fr : list row) (ks : list (Z * Z))
    (maes : list (Z * Z * cell)) :
  for_each (fun k =>
              let x := group_rows fr k in
              m <- mean_absolute_error (map sales x) (map predictions x) ;;
              Return (k, Some m)) ks = Return maes ->
  maes = map (fun k => (k, Some (row_mae (group_rows fr k)))) ks /\
  Forall (fun k =>
            mean_absolute_error (map sales (group_rows fr k))
              (map predictions (group_rows fr k))
            = Return (row_mae (group_rows fr k))) ks.
Proof.
  revert maes. induction ks as [| k ks IH]; simpl; intros maes H.
  - injection H as <-. split; constructor.
  - apply bind_Return in H as (y & Hy & H).
    apply bind_Return in H as (ys & Hys & H).
    injection H as <-.
    apply bind_Return in Hy as (m & Hm & Hy). injection Hy as <-.
    destruct (IH ys Hys) as [-> Hall].
    assert (row_mae (group_rows fr k) = m) as E
        by (unfold row_mae; now rewrite Hm).
    rewrite E. split; [reflexivity|].
    constructor; [now rewrite E | exact Hall].
Qed.

Lemma items_results_Return (fr : list row) (rows : list (Z * Z * metrics)) :
  items_results fr = Return rows ->
  rows = map (fun k => (k, round_metrics (items_metrics (group_rows fr k))))
             (store_item_keys fr) /\
  Forall (fun k =>
            mean_absolute_error (map sales (group_rows fr k))
              (map predictions (group_rows fr k))
            = Return (row_mae (group_rows fr k))) (store_item_keys fr).
Proof.
  unfold items_results. intros H.
  apply bind_Return in H as (maes & Hmaes & H).
  injection H as <-.
  apply mae_items_Return_gen in Hmaes as [-> Hall].
  split; [|exact Hall].
  unfold sum_pred_items, avg_pred_items.
  rewrite (merge_same_keys _ pair_eqb pair_eqb_eq)
    by apply store_item_keys_NoDup.
  rewrite (merge_same_keys _ pair_eqb pair_eqb_eq)
    by apply store_item_keys_NoDup.
  rewrite !map_map. reflexivity.
Qed.

Lemma group_rows_nonempty (fr : list row) (k : Z * Z) :
  In k (store_item_keys fr) -> group_rows fr k <> [].
Proof.
  intros Hin. apply store_item_keys_In in Hin.
  apply in_map_iff in Hin as (r & Hr & Hin).
  assert (In r (group_rows fr k)) as Hg.
  { apply filter_In. split; [exact Hin|]. now apply pair_eqb_eq. }
  intros E. rewrite E in Hg. exact Hg.
Qed.

(** On a group whose row-wise MAE is defined, the per-store-item row has
    the shape of the other branches, its average being the mean of the
    group's predictions. *)
Lemma items_metrics_shape (x : list row) :
  x <> [] ->
  mean_absolute_error (map sales x) (map predictions x) = Return (row_mae x) ->
  0 <= row_mae x /\
  items_metrics x
  = scenario_metrics (nansum (map predictions x))
      (nansum (map predictions x) / INR (length x)) (row_mae x).
Proof.
  intros Hne Hm. split; [now apply mean_absolute_error_nonneg in Hm|].
  apply mean_absolute_error_Return in Hm as (ts & ps & _ & Hps & _ & _).
  unfold items_metrics, items_row. simpl.
  rewrite (nanmean_all_finite _ ps Hps), length_map.
  - reflexivity.
  - destruct x; [congruence | discriminate].
Qed.

Lemma try_except_Return {A} (body : outcome Exception A) (a : A) :
  try_except body = Return a -> body = Return a.
Proof. destruct body; simpl; [now intros [= ->] | discriminate]. Qed.

Lemma stores_results_Return (fr : list row) (rows : list (Z * metrics)) :
  stores_results fr = Return rows ->
  exists raws,
    rows = map (fun r => (fst r, round_metrics (snd r))) raws /\
    Forall2 (fun store_id r =>
               fst r = store_id /\
               scenarios (store_i_data fr store_id) = Return (snd r))
            store_ids raws.
Proof.
  unfold stores_results. intros H.
  apply bind_Return in H as (raws & Hraws & H). injection H as <-.
  exists raws. split; [reflexivity|].
  apply for_each_Forall2 in Hraws.
  eapply Forall2_impl; [|exact Hraws].
  intros s r Hr. simpl in Hr.
  apply bind_Return in Hr as (m & Hm & Hr). injection Hr as <-.
  now split.
Qed.

Lemma try_body_rows_shape data y_true y_pred per_store per_store_item t :
  try_body data y_true y_pred per_store per_store_item = Return t ->
  Forall row_shape (metrics_of t).
Proof.
  unfold try_body. intros H.
  apply bind_Return in H as (fr & _ & H).
  destruct per_store; [|destruct per_store_item].
  - apply bind_Return in H as (rows & Hrows & H). injection H as <-. simpl.
    apply stores_results_Return in Hrows as (raws & -> & Hraws).
    rewrite map_map. simpl. apply Forall_map.
    clear -Hraws. induction Hraws as [| s r ss rs [_ Hr] _ IH]; constructor; auto.
    apply scenarios_Return in Hr as (mae & _ & Hpos & ->).
    unfold row_shape. eauto.
  - apply bind_Return in H as (rows & Hrows & H). injection H as <-. simpl.
    apply items_results_Return in Hrows as [-> Hall].
    rewrite map_map. simpl. apply Forall_map.
    apply Forall_forall. intros k Hk.
    rewrite Forall_forall in Hall.
    destruct (items_metrics_shape (group_rows fr k)) as [Hpos ->];
      [now apply group_rows_nonempty | now apply Hall |].
    unfold row_shape. eauto.
  - apply bind_Return in H as (rows & Hrows & H). injection H as <-. simpl.
    unfold overall_results_df in Hrows.
    apply bind_Return in Hrows as (m & Hm & Hrows). injection Hrows as <-.
    apply scenarios_Return in Hm as (mae & _ & Hpos & ->).
    repeat constructor. unfold row_shape. eauto.
Qed.

(** ** Evaluating the estimator on sample inputs *)

Lemma expm1_0 : expm1 0 = 0.
Proof. unfold expm1. rewrite exp_0. lra. Qed.

Lemma expm1_ln (x : R) : 0 < x -> expm1 (ln x) = x - 1.
Proof. intros H. unfold expm1. now rewrite exp_ln. Qed.

Ltac evaluate_estimator :=
  unfold estimate_financial_results, try_body, financial_results;
  cbn -[round_half_even exp ln Rabs INR Rplus Rminus Rmult Rdiv IZR].

Ltac rounds_to_nearest :=
  match goal with
  | |- Some (round_half_even ?x) = Some (IZR ?z) =>
      f_equal; apply (round_half_even_near x z); lra
  end.

Lemma example_overall_value :
  estimate_financial_results example_data example_true example_pred false false
  = Return example_table.
Proof.
  evaluate_estimator.
  rewrite expm1_0, (expm1_ln 2) by lra.
  replace (2 - 1 + 0 - (0 + 0)) with 1 by lra.
  rewrite Rabs_R1. simpl INR.
  unfold round_metrics, round_cell; simpl.
  unfold example_table.
  do 3 f_equal; f_equal; rounds_to_nearest.
Qed.

(** ** The properties of the estimator *)

(** C7: on one store/item pair observed on two dates, with true log-values
    [0; 0] and predicted log-values [ln 2; ln 2], the overall mode returns
    one row with total predicted sales 2, daily MAE 1 and average predicted
    sales 0 (2/93 rounded); the scenario columns follow: -1 and 1 for the
    daily average, -91 and 95 for the total. *)
Theorem overall_example :
  estimate_financial_results
    [mk_data_row 0 1 1 1; mk_data_row 1 2 1 1]
    [(0%Z, 0); (1%Z, 0)]
    (ndarray [ln 2; ln 2]) false false
  = Return (OverallResults
              [mk_metrics (Some 2) (Some 0) (Some 1)
                 (Some (-1)) (Some 1) (Some (-91)) (Some 95)]).
Proof. exact example_overall_value. Qed.

(** C4: in every row of a returned table, in every mode, worst average
    scenario <= average predicted sales <= best average scenario and worst
    total scenario <= total predicted sales <= best total scenario, after
    the final rounding. *)
Theorem scenario_ordering data y_true y_pred per_store per_store_item t :
  estimate_financial_results data y_true y_pred per_store per_store_item
  = Return t ->
  Forall scenario_ordered (metrics_of t).
Proof.
  intros H. apply try_except_Return, try_body_rows_shape in H.
  eapply Forall_impl; [|exact H].
  intros m (total & avg & mae & Hpos & ->).
  unfold scenario_ordered, scenario_metrics, round_metrics. simpl.
  repeat split; apply round_half_even_mono; nra.
Qed.

Lemma scenario_ordering_witness :
  Forall scenario_ordered (metrics_of example_table).
Proof.
  apply (scenario_ordering example_data example_true example_pred false false).
  exact example_overall_value.
Defined.

Lemma round_half_even_rounds_to (x : R) :
  exists z, round_half_even x = IZR z /\ rounds_to x z.
Proof.
  pose proof (Zfloor_bound x) as [Hlo Hhi].
  unfold round_half_even, rounds_to.
  destruct (Rlt_dec (x - IZR (Zfloor x)) (1 / 2)) as [Hlt | Hge].
  - exists (Zfloor x). split; [reflexivity|].
    unfold Rabs. destruct (Rcase_abs _); split; lra.
  - destruct (Rlt_dec (1 / 2) (x - IZR (Zfloor x))) as [Hgt | Hle].
    + exists (Zfloor x + 1)%Z. split; [reflexivity|].
      rewrite plus_IZR. unfold Rabs. destruct (Rcase_abs _); split; lra.
    + destruct (Z.even (Zfloor x)) eqn:Ev.
      * exists (Zfloor x). split; [reflexivity|].
        unfold Rabs. destruct (Rcase_abs _); split; auto; lra.
      * exists (Zfloor x + 1)%Z. split; [reflexivity|].
        rewrite plus_IZR. split.
        -- unfold Rabs. destruct (Rcase_abs _); lra.
        -- intros _. rewrite Z.add_1_r, Z.even_succ, <- Z.negb_even, Ev.
           reflexivity.
Qed.

Lemma round_cell_rounded_from (x : R) :
  rounded_from (Some x) (round_cell (Some x)).
Proof.
  destruct (round_half_even_rounds_to x) as (z & Hz & Hr).
  exists x, z. simpl. rewrite Hz. auto.
Qed.

Lemma scenario_rounded_from (total avg mae : R) :
  row_rounded_from (scenario_metrics total avg mae)
    (round_metrics (scenario_metrics total avg mae)).
Proof.
  unfold row_rounded_from, scenario_metrics, round_metrics. simpl.
  repeat split; apply round_cell_rounded_from.
Qed.

Lemma rounded_rows (raws : list metrics) :
  Forall (fun m => exists total avg mae, m = scenario_metrics total avg mae)
         raws ->
  Forall2 row_rounded_from raws (map round_metrics raws).
Proof.
  induction 1 as [| m ms (total & avg & mae & ->) _ IH]; simpl; constructor.
  - apply scenario_rounded_from.
  - exact IH.
Qed.

Lemma stores_computed_rows (fr : list row) (ids : list Z)
    (raws : list (Z * metrics)) :
  Forall2 (fun store_id r =>
             fst r = store_id /\
             scenarios (store_i_data fr store_id) = Return (snd r))
          ids raws ->
  Forall2 (fun store_id raw => scenarios (store_i_data fr store_id) = Return raw)
          ids (map snd raws) /\
  Forall (fun m => exists total avg mae, m = scenario_metrics total avg mae)
         (map snd raws).
Proof.
  induction 1 as [| s r ss rs [_ Hr] _ [IH1 IH2]]; simpl.
  - split; constructor.
  - split; constructor; auto.
    apply scenarios_Return in Hr as (mae & _ & _ & ->). eauto.
Qed.

Lemma items_computed_rows (fr : list row) (maes : list (Z * Z * cell)) :
  mae_items fr = Return maes ->
  Forall (fun m => exists total avg mae, m = scenario_metrics total avg mae)
         (map (fun r => snd (items_row r))
              (merge pair_eqb
                 (merge pair_eqb (sum_pred_items fr) (avg_pred_items fr))
                 maes)).
Proof.
  intros Hmaes. apply mae_items_Return_gen in Hmaes as [-> Hall].
  unfold sum_pred_items, avg_pred_items.
  rewrite (merge_same_keys _ pair_eqb pair_eqb_eq)
    by apply store_item_keys_NoDup.
  rewrite (merge_same_keys _ pair_eqb pair_eqb_eq)
    by apply store_item_keys_NoDup.
  rewrite map_map. apply Forall_map, Forall_forall. intros k Hk.
  rewrite Forall_forall in Hall.
  destruct (items_metrics_shape (group_rows fr k)) as [_ E];
    [now apply group_rows_nonempty | now apply Hall |].
  unfold items_metrics in E. simpl in *. rewrite E. eauto.
Qed.

(** C6: in every mode, the numeric columns of a returned table are those of
    the rows the branch computed from the working table, each rounded, as
    the last step, to the nearest integer, a half going to the even
    neighbour; so every numeric column holds integers only. *)
Theorem results_are_rounded data y_true y_pred per_store per_store_item t :
  estimate_financial_results data y_true y_pred per_store per_store_item
  = Return t ->
  exists fr raws,
    financial_results data y_true y_pred = Return fr /\
    computed_rows fr per_store per_store_item raws /\
    Forall2 row_rounded_from raws (metrics_of t).
Proof.
  intros H. apply try_except_Return in H. unfold try_body in H.
  apply bind_Return in H as (fr & Hfr & H). exists fr.
  destruct per_store; [|destruct per_store_item].
  - apply bind_Return in H as (rows & Hrows & H). injection H as <-.
    apply stores_results_Return in Hrows as (raws & -> & Hraws).
    apply stores_computed_rows in Hraws as [Hc Hs].
    exists (map snd raws). split; [exact Hfr|]. split; [exact Hc|].
    simpl. rewrite map_map. simpl. rewrite <- (map_map snd round_metrics).
    now apply rounded_rows.
  - apply bind_Return in H as (rows & Hrows & H). injection H as <-.
    unfold items_results in Hrows.
    apply bind_Return in Hrows as (maes & Hmaes & Hrows).
    injection Hrows as <-.
    eexists. split; [exact Hfr|]. split.
    + simpl. exists maes. split; [exact Hmaes | reflexivity].
    + simpl. rewrite !map_map. simpl.
      rewrite <- (map_map (fun r => snd (items_row r)) round_metrics).
      now apply rounded_rows, items_computed_rows.
  - apply bind_Return in H as (rows & Hrows & H). injection H as <-.
    unfold overall_results_df in Hrows.
    apply bind_Return in Hrows as (m & Hm & Hrows). injection Hrows as <-.
    exists [m]. split; [exact Hfr|]. split.
    + simpl. exists m. now split.
    + apply rounded_rows. constructor; [|constructor].
      apply scenarios_Return in Hm as (mae & _ & _ & ->). eauto.
Qed.

Lemma results_are_rounded_witness :
  exists fr raws,
    financial_results example_data example_true example_pred = Return fr /\
    computed_rows fr false false raws /\
    Forall2 row_rounded_from raws (metrics_of example_table).
Proof.
  apply (results_are_rounded example_data example_true example_pred false false).
  exact example_overall_value.
Defined.

(** C9: a call either raises the single wrapped error, carrying the
    exception that stopped the computation, or returns the table the
    computation produced; an exception never leaves a table behind. *)
Theorem errors_are_wrapped data y_true y_pred per_store per_store_item :
  (exists cause,
      try_body data y_true y_pred per_store per_store_item = Raise cause /\
      estimate_financial_results data y_true y_pred per_store per_store_item
      = Raise (CustomException_from cause)) \/
  (exists t,
      try_body data y_true y_pred per_store per_store_item = Return t /\
      estimate_financial_results data y_true y_pred per_store per_store_item
      = Return t).
Proof.
  unfold estimate_financial_results.
  destruct (try_body data y_true y_pred per_store per_store_item) as [t | e];
    simpl; eauto.
Qed.

(** C10: the two flags are independent booleans.  With both set, the call
    is the per-store computation and the per-store-item branch plays no
    part; with none set, it is the overall computation. *)
Theorem flags_select_branch data y_true y_pred :
  (forall per_store_item,
      estimate_financial_results data y_true y_pred true per_store_item
      = try_except (fr <- financial_results data y_true y_pred ;;
                    rows <- stores_results fr ;;
                    Return (StoresResults rows))) /\
  estimate_financial_results data y_true y_pred false false
  = try_except (fr <- financial_results data y_true y_pred ;;
                rows <- overall_results_df fr ;;
                Return (OverallResults rows)).
Proof. split; [intros b|]; reflexivity. Qed.

(** ** The working table keeps the rows of [data] *)

Lemma set_column_length (n : nat) (v : values) (c : list cell) :
  set_column n v = Return c -> length c = n.
Proof.
  destruct v as [l | s]; simpl.
  - destruct (Nat.eqb (length l) n) eqn:E; [|discriminate].
    intros [= <-]. rewrite length_map. now apply Nat.eqb_eq.
  - destruct (unique_labels (map fst s)); [|discriminate].
    intros [= <-]. unfold range_index. now rewrite !length_map, length_seq.
Qed.

Lemma attach_store_item (keys : list data_row) (s p : list cell) :
  length s = length keys -> length p = length keys ->
  map store_item (attach keys s p) = map data_store_item keys.
Proof.
  revert s p. induction keys as [| k keys IH]; intros s p Hs Hp; [reflexivity|].
  destruct s as [| x s]; [discriminate|].
  destruct p as [| y p]; [discriminate|].
  simpl. f_equal. apply IH; simpl in *; lia.
Qed.

Lemma attach_In (keys : list data_row) (s p : list cell) (r : row) :
  In r (attach keys s p) ->
  exists d, In d keys /\ date r = d_date d /\ store r = d_store d /\
            item r = d_item d.
Proof.
  revert s p. induction keys as [| k keys IH]; intros s p; simpl; [tauto|].
  destruct s as [| x s]; [simpl; tauto|].
  destruct p as [| y p]; [simpl; tauto|].
  intros [<- | Hin].
  - exists k. simpl. auto.
  - destruct (IH _ _ Hin) as (d & Hd & H). exists d. auto.
Qed.

Lemma financial_results_Return data y_true y_pred fr :
  financial_results data y_true y_pred = Return fr ->
  exists s p, length s = length data /\ length p = length data /\
              fr = attach data s p.
Proof.
  unfold financial_results. intros H.
  apply bind_Return in H as (s & Hs & H).
  apply bind_Return in H as (p & Hp & H).
  injection H as <-. exists s, p.
  apply set_column_length in Hs, Hp. auto.
Qed.

Lemma financial_results_store_item data y_true y_pred fr :
  financial_results data y_true y_pred = Return fr ->
  map store_item fr = map data_store_item data.
Proof.
  intros H. apply financial_results_Return in H as (s & p & Hs & Hp & ->).
  now apply attach_store_item.
Qed.

(** ** Row counts *)

Lemma stores_results_ids (fr : list row) (rows : list (Z * metrics)) :
  stores_results fr = Return rows -> map fst rows = store_ids.
Proof.
  intros H. apply stores_results_Return in H as (raws & -> & Hraws).
  rewrite map_map. simpl.
  induction Hraws as [| s r ss rs [Hr _] _ IH]; simpl; [reflexivity|].
  now rewrite Hr, IH.
Qed.

(** C5: a returned table has exactly 1 row in overall mode; exactly 10 rows
    in per-store mode, keyed by the store ids 1 to 10 in this order whatever
    the stores of the data are; and in per-store-item mode exactly one row
    per distinct (store, item) pair of the data. *)
Theorem row_counts data y_true y_pred per_store per_store_item t :
  estimate_financial_results data y_true y_pred per_store per_store_item
  = Return t ->
  match per_store, per_store_item with
  | true, _ =>
      exists rows, t = StoresResults rows /\ n_rows t = 10%nat /\
                   map fst rows = [1; 2; 3; 4; 5; 6; 7; 8; 9; 10]%Z
  | false, true =>
      exists rows, t = ItemsResults rows /\ NoDup (map fst rows) /\
                   forall k, In k (map fst rows)
                             <-> In k (map data_store_item data)
  | false, false =>
      exists rows, t = OverallResults rows /\ n_rows t = 1%nat
  end.
Proof.
  intros H. apply try_except_Return in H. unfold try_body in H.
  apply bind_Return in H as (fr & Hfr & H).
  destruct per_store; [|destruct per_store_item].
  - apply bind_Return in H as (rows & Hrows & H). injection H as <-.
    exists rows. apply stores_results_ids in Hrows.
    repeat split; [|exact Hrows].
    simpl. rewrite <- (length_map fst), Hrows. reflexivity.
  - apply bind_Return in H as (rows & Hrows & H). injection H as <-.
    exists rows. apply items_results_Return in Hrows as [-> _].
    rewrite map_map. simpl. rewrite map_id.
    repeat split.
    + apply store_item_keys_NoDup.
    + intros Hk. apply store_item_keys_In in Hk.
      now rewrite (financial_results_store_item _ _ _ _ Hfr) in Hk.
    + intros Hk. apply store_item_keys_In.
      now rewrite (financial_results_store_item _ _ _ _ Hfr).
  - apply bind_Return in H as (rows & Hrows & H). injection H as <-.
    exists rows. split; [reflexivity|].
    unfold overall_results_df in Hrows.
    apply bind_Return in Hrows as (m & _ & Hrows). now injection Hrows as <-.
Qed.

(** ** A store without rows *)

Lemma for_each_Raise_inv {E A B} (f : A -> outcome E B) (xs : list A) (e : E) :
  for_each f xs = Raise e -> exists x, In x xs /\ f x = Raise e.
Proof.
  induction xs as [| a xs IH]; simpl; [discriminate|].
  destruct (f a) as [y | e0] eqn:Ha; simpl.
  - destruct (for_each f xs) as [ys | e1]; simpl; [discriminate|].
    intros [= ->]. destruct (IH eq_refl) as (x & Hx & Hfx). eauto.
  - intros [= ->]. eauto.
Qed.

(** The day-grouped MAE only fails on an empty set of rows. *)
Lemma daily_mae_Raise (rows : list row) (e : Exception) :
  daily_mae rows = Raise e -> e = NoSamples.
Proof.
  unfold daily_mae, mean_absolute_error.
  rewrite !length_map, Nat.eqb_refl. simpl.
  rewrite !all_finite_map_Some.
  destruct (map _ (groupby_date_sum rows)); [now intros [= <-] | discriminate].
Qed.

Lemma scenarios_Raise (rows : list row) (e : Exception) :
  scenarios rows = Raise e -> e = NoSamples.
Proof.
  unfold scenarios.
  destruct (daily_mae rows) as [m | e0] eqn:Hm; simpl; [discriminate|].
  intros [= <-]. now apply daily_mae_Raise in Hm.
Qed.

Lemma store_ids_range (s : Z) : (1 <= s <= 10)%Z -> In s store_ids.
Proof.
  intros H. simpl.
  assert (s = 1 \/ s = 2 \/ s = 3 \/ s = 4 \/ s = 5 \/ s = 6 \/ s = 7 \/
          s = 8 \/ s = 9 \/ s = 10)%Z as Hs by lia.
  intuition.
Qed.

(** C8: in per-store mode, when a store id between 1 and 10 has no row in
    the data, the call raises the wrapped error instead of returning a
    table; once the working table is built, the cause is the metric routine
    rejecting the empty day series of that store. *)
Theorem missing_store_raises data y_true y_pred per_store_item :
  (exists s, (1 <= s <= 10)%Z /\ forall r, In r data -> d_store r <> s) ->
  exists cause,
    estimate_financial_results data y_true y_pred true per_store_item
    = Raise (CustomException_from cause) /\
    (forall fr, financial_results data y_true y_pred = Return fr ->
                cause = NoSamples).
Proof.
  intros (s & Hs & Hmiss).
  unfold estimate_financial_results, try_body.
  destruct (financial_results data y_true y_pred) as [fr | e] eqn:Hfr; simpl.
  2: { exists e. split; [reflexivity | discriminate]. }
  assert (store_i_data fr s = []) as Hempty.
  { unfold store_i_data.
    destruct (filter _ fr) as [| r rs] eqn:Hf; [reflexivity|].
    assert (In r (filter (fun r => (store r =? s)%Z) fr)) as Hin
        by (rewrite Hf; now left).
    apply filter_In in Hin as [Hin Hst]. apply Z.eqb_eq in Hst.
    apply financial_results_Return in Hfr as (sc & pc & _ & _ & ->).
    apply attach_In in Hin as (d & Hd & _ & Hsd & _).
    exfalso. apply (Hmiss d Hd). congruence. }
  unfold stores_results.
  destruct (for_each_Raise
              (fun store_id => m <- scenarios (store_i_data fr store_id) ;;
                               Return (store_id, m))
              store_ids s NoSamples (store_ids_range s Hs)) as [e He].
  { rewrite Hempty. reflexivity. }
  rewrite He. simpl. exists e. split; [reflexivity|].
  intros fr' [= <-].
  apply for_each_Raise_inv in He as (x & _ & Hx).
  destruct (scenarios (store_i_data fr x)) as [m | e0] eqn:Hsc; simpl in Hx;
    [discriminate|].
  injection Hx as <-. now apply scenarios_Raise in Hsc.
Qed.

Lemma missing_store_raises_witness :
  exists cause,
    estimate_financial_results [] [] (ndarray []) true false
    = Raise (CustomException_from cause) /\
    (forall fr, financial_results [] [] (ndarray []) = Return fr ->
                cause = NoSamples).
Proof.
  apply (missing_store_raises [] [] (ndarray []) false).
  exists 1%Z. split; [lia | intros r []].
Defined.

(** ** Sample evaluations in per-store-item mode *)

Lemma round_half_even_within (x : R) :
  x - 1 / 2 <= round_half_even x <= x + 1 / 2.
Proof.
  pose proof (Zfloor_bound x) as [Hlo Hhi].
  unfold round_half_even.
  repeat destruct (Rlt_dec _ _); try destruct (Z.even _);
    rewrite ?plus_IZR; lra.
Qed.

Lemma Rabs_minus_one : Rabs (-1) = 1.
Proof. unfold Rabs. destruct (Rcase_abs _); lra. Qed.

Lemma same_day_fr_value :
  financial_results same_day_data same_day_true same_day_pred
  = Return same_day_fr.
Proof. reflexivity. Qed.

Lemma same_day_value :
  estimate_financial_results same_day_data same_day_true same_day_pred
    false true
  = Return same_day_table.
Proof.
  evaluate_estimator. unfold store_item. simpl.
  rewrite expm1_0, (expm1_ln 2), (expm1_ln 3) by lra.
  replace (2 - 1 - 0) with 1 by lra.
  replace (2 - 1 - (3 - 1)) with (-1) by lra.
  rewrite Rabs_minus_one, Rabs_R1. simpl INR.
  unfold round_metrics, round_cell; simpl.
  unfold same_day_table.
  do 4 f_equal; f_equal; rounds_to_nearest.
Qed.

Lemma single_row_fr_value :
  financial_results single_row_data single_row_true single_row_pred
  = Return single_row_fr.
Proof. reflexivity. Qed.

Lemma single_row_value :
  estimate_financial_results single_row_data single_row_true single_row_pred
    false true
  = Return single_row_table.
Proof.
  evaluate_estimator. unfold store_item. simpl.
  rewrite (expm1_ln 94) by lra.
  replace (94 - 1 - (94 - 1)) with 0 by lra.
  rewrite Rabs_R0. simpl INR.
  unfold round_metrics, round_cell; simpl.
  unfold single_row_table.
  do 4 f_equal; f_equal; rounds_to_nearest.
Qed.

(** C1, as stated, fails: with two rows of one (store, item) pair on the
    same date, sales 0 and 2 against predictions 1 and 1, the per-store-item
    table reports MAE 1, while the day sums are 2 and 2, of MAE 0. *)
Lemma mae_daily_everywhere_fails :
  financial_results same_day_data same_day_true same_day_pred
  = Return same_day_fr /\
  estimate_financial_results same_day_data same_day_true same_day_pred
    false true = Return same_day_table /\
  ~ mae_daily_everywhere same_day_fr same_day_table.
Proof.
  split; [exact same_day_fr_value|].
  split; [exact same_day_value|].
  unfold mae_daily_everywhere, same_day_table. intros H.
  inversion H as [| r rs (d & Hd & Hm) _]; subst. clear H.
  unfold daily_mae, same_day_fr in Hd.
  cbn -[round_half_even exp ln Rabs INR Rplus Rminus Rmult Rdiv IZR] in Hd.
  injection Hd as <-.
  rewrite expm1_0, (expm1_ln 2), (expm1_ln 3) in Hm by lra.
  replace (2 - 1 + (2 - 1 + 0) - (0 + (3 - 1 + 0))) with 0 in Hm by lra.
  rewrite Rabs_R0 in Hm. simpl in Hm.
  replace ((0 + 0) / 1) with 0 in Hm by lra.
  rewrite (round_half_even_IZR 0) in Hm.
  injection Hm as Hm. lra.
Qed.


(** C2 on a Series of predictions whose labels are not the positions: the
    prediction column follows the labels, so it is [0; 1], where the values
    taken by position give [1; 0]. *)
Theorem prediction_labels_not_reset :
  exists fr,
    financial_results example_data example_true relabelled_pred = Return fr /\
    map sales fr = [Some 0; Some 0] /\
    map sales fr = positional (map snd example_true) /\
    map predictions fr = [Some 0; Some 1] /\
    positional (values_list relabelled_pred) = [Some 1; Some 0] /\
    map predictions fr <> positional (values_list relabelled_pred).
Proof.
  eexists. split; [reflexivity|].
  unfold positional. simpl.
  rewrite expm1_0, (expm1_ln 2) by lra.
  replace (2 - 1) with 1 by lra.
  repeat split.
  intros [= H _]. lra.
Qed.

(** ** Rows of the per-store and per-store-item tables *)

Lemma stores_results_rows (fr : list row) (rows : list (Z * metrics)) :
  stores_results fr = Return rows ->
  Forall (fun r => exists raw,
              scenarios (store_i_data fr (fst r)) = Return raw /\
              snd r = round_metrics raw) rows.
Proof.
  intros H. apply stores_results_Return in H as (raws & -> & Hraws).
  apply Forall_map.
  induction Hraws as [| s r ss rs [Hs Hr] _ IH]; constructor; [|exact IH].
  simpl. exists (snd r). rewrite Hs. auto.
Qed.

Lemma items_results_rows (fr : list row) (rows : list (Z * Z * metrics)) :
  items_results fr = Return rows ->
  Forall (fun r =>
            group_rows fr (fst r) <> [] /\
            mean_absolute_error (map sales (group_rows fr (fst r)))
              (map predictions (group_rows fr (fst r)))
            = Return (row_mae (group_rows fr (fst r))) /\
            snd r = round_metrics (items_metrics (group_rows fr (fst r))))
         rows.
Proof.
  intros H. apply items_results_Return in H as [-> Hall].
  apply Forall_map. apply Forall_forall. intros k Hk. simpl.
  rewrite Forall_forall in Hall.
  repeat split; [now apply group_rows_nonempty | now apply Hall].
Qed.

(** ** Day sums of rows with distinct dates *)

Lemma Rsum_Permutation (l l' : list R) :
  Permutation l l' -> Rsum l = Rsum l'.
Proof. induction 1; simpl; lra. Qed.

Section DistinctKeys.
Variable K : Type.
Variable eqb ltb : K -> K -> bool.
Hypothesis eqb_eq : forall a b, eqb a b = true <-> a = b.

Lemma insert_key_fresh (k : K) (ks : list K) :
  ~ In k ks ->
  Permutation (insert_key eqb ltb k ks) (k :: ks).
Proof.
  induction ks as [| k' ks IH]; simpl; intros Hnotin; [reflexivity|].
  destruct (eqb k k') eqn:E.
  - apply eqb_eq in E. subst k'. exfalso. apply Hnotin. now left.
  - destruct (ltb k k'); [reflexivity|].
    rewrite IH by (intros H; apply Hnotin; now right).
    apply perm_swap.
Qed.

Lemma group_keys_distinct (ks : list K) :
  NoDup ks -> Permutation (group_keys eqb ltb ks) ks.
Proof.
  induction 1 as [| k ks Hnotin Hnd IH]; simpl; [reflexivity|].
  rewrite insert_key_fresh.
  - now apply perm_skip.
  - intros Hin. apply Hnotin.
    exact (proj1 (group_keys_In _ eqb ltb eqb_eq k ks) Hin).
Qed.
End DistinctKeys.

Lemma date_filter_single (x : list row) (r : row) :
  NoDup (map date x) -> In r x ->
  filter (fun r' => (date r' =? date r)%Z) x = [r].
Proof.
  induction x as [| a x IH]; simpl; [tauto|].
  intros Hnd Hin. inversion Hnd as [| ? ? Hnotin Hnd']; subst.
  destruct Hin as [-> | Hin].
  - rewrite Z.eqb_refl. f_equal.
    clear IH Hnd. induction x as [| b x IH]; simpl; [reflexivity|].
    destruct (date b =? date r)%Z eqn:E.
    + apply Z.eqb_eq in E. exfalso. apply Hnotin. simpl. now left.
    + inversion Hnd'; subst. apply IH; auto.
      intros H. apply Hnotin. simpl. now right.
  - destruct (date a =? date r)%Z eqn:E; [|now apply IH].
    apply Z.eqb_eq in E. exfalso. apply Hnotin.
    rewrite E. now apply in_map.
Qed.

Lemma rowwise_errors (x : list row) (ts ps : list R) :
  all_finite (map sales x) = Some ts ->
  all_finite (map predictions x) = Some ps ->
  Rsum (map (fun tp => Rabs (snd tp - fst tp)) (combine ts ps))
  = Rsum (map abs_err x).
Proof.
  revert ts ps. induction x as [| r x IH]; simpl; intros ts ps Ht Hp.
  - injection Ht as <-. reflexivity.
  - unfold abs_err at 1.
    destruct (sales r) as [s|]; [|discriminate].
    destruct (predictions r) as [p|]; [|discriminate].
    destruct (all_finite (map sales x)) as [ts'|]; [|discriminate].
    destruct (all_finite (map predictions x)) as [ps'|]; [|discriminate].
    injection Ht as <-. injection Hp as <-. simpl.
    now rewrite (IH ts' ps').
Qed.

Lemma all_finite_In (c : list cell) (vs : list R) (a : cell) :
  all_finite c = Some vs -> In a c -> exists v, a = Some v.
Proof.
  revert vs. induction c as [| [v|] c IH]; simpl; intros vs H Hin.
  - tauto.
  - destruct (all_finite c) as [ws|]; [|discriminate].
    destruct Hin as [<- | Hin]; eauto.
  - discriminate.
Qed.

Lemma mean_absolute_error_map {A} (f g : A -> R) (l : list A) :
  l <> [] ->
  mean_absolute_error (map (fun a => Some (f a)) l) (map (fun a => Some (g a)) l)
  = Return (Rsum (map (fun a => Rabs (g a - f a)) l) / INR (length l)).
Proof.
  intros Hne. unfold mean_absolute_error.
  rewrite !length_map, Nat.eqb_refl, !all_finite_map_Some. simpl.
  assert (combine (map f l) (map g l) = map (fun a => (f a, g a)) l) as ->
      by (clear; induction l as [| a l IH]; simpl; [reflexivity | now rewrite IH]).
  rewrite map_map, length_map. simpl.
  destruct l as [| a l]; [congruence | reflexivity].
Qed.

(** On rows with distinct dates and no NaN, each day sum is the value of
    the single row of that day, so the day-grouped MAE is the row-wise
    one. *)
Lemma daily_mae_distinct_dates (x : list row) (e : R) :
  NoDup (map date x) ->
  mean_absolute_error (map sales x) (map predictions x) = Return e ->
  daily_mae x = Return e.
Proof.
  intros Hnd He.
  pose proof (mean_absolute_error_Return _ _ _ He) as (ts & ps & Hts & Hps & Hne & _).
  assert (length ts = length x) as Hlen.
  { destruct (all_finite_dropna _ _ Hts) as [_ ->]. apply length_map. }
  assert (e = Rsum (map abs_err x) / INR (length x)) as ->.
  { rewrite <- (rowwise_errors x _ _ Hts Hps), <- Hlen.
    unfold mean_absolute_error in He.
    rewrite !length_map, Nat.eqb_refl, Hts, Hps in He. simpl in He.
    destruct ts as [| t ts']; [congruence|].
    injection He as <-. reflexivity. }
  pose proof (group_keys_distinct _ Z.eqb Z.ltb Z.eqb_eq _ Hnd) as Hperm.
  unfold daily_mae, groupby_date_sum. rewrite !map_map. simpl.
  set (keys := group_keys Z.eqb Z.ltb (map date x)) in *.
  assert (length keys = length x) as Hk
      by (rewrite (Permutation_length Hperm); apply length_map).
  rewrite mean_absolute_error_map.
  2: { intros ->. simpl in Hk. rewrite <- Hlen in Hk.
       destruct ts; [congruence | discriminate]. }
  rewrite Hk. do 2 f_equal.
  rewrite (Rsum_Permutation _ _ (Permutation_map _ Hperm)).
  rewrite map_map. f_equal.
  apply map_ext_in. intros r Hr.
  rewrite (date_filter_single x r Hnd Hr). simpl.
  destruct (all_finite_In _ _ (sales r) Hts (in_map sales _ _ Hr)) as [s Hs].
  destruct (all_finite_In _ _ (predictions r) Hps (in_map predictions _ _ Hr))
    as [p Hp].
  unfold abs_err. rewrite Hs, Hp. f_equal. lra.
Qed.

Lemma row_counts_witness :
  exists rows,
    same_day_table = ItemsResults rows /\ NoDup (map fst rows) /\
    forall k, In k (map fst rows) <-> In k (map data_store_item same_day_data).
Proof.
  apply (row_counts same_day_data same_day_true same_day_pred false true).
  exact same_day_value.
Defined.

(** ** What the error column holds in each mode *)

Lemma scenarios_mae_is_daily (rows : list row) (raw : metrics) :
  scenarios rows = Return raw -> mae_is_daily rows (round_metrics raw).
Proof.
  intros H. apply scenarios_Return in H as (mae & Hmae & _ & ->).
  exists mae. split; [exact Hmae | reflexivity].
Qed.

(** C1, amended: in overall and per-store modes the reported MAE is the
    MAE between the day sums of sales and of predictions of the rows the
    result row stands for.  In per-store-item mode the reported MAE of a
    (store, item) group is the MAE over the rows of the group; it is the
    day-grouped MAE when no date occurs twice in the group. *)
Theorem mae_aggregation data y_true y_pred per_store per_store_item fr t :
  financial_results data y_true y_pred = Return fr ->
  estimate_financial_results data y_true y_pred per_store per_store_item
  = Return t ->
  match per_store, per_store_item with
  | false, true =>
      exists rows,
        t = ItemsResults rows /\
        Forall (fun r =>
                  mae_is_rowwise (group_rows fr (fst r)) (snd r) /\
                  (NoDup (map date (group_rows fr (fst r))) ->
                   mae_is_daily (group_rows fr (fst r)) (snd r)))
               rows
  | _, _ => mae_daily_everywhere fr t
  end.
Proof.
  intros Hfr H. apply try_except_Return in H. unfold try_body in H.
  rewrite Hfr in H. simpl in H.
  assert (forall rows, stores_results fr = Return rows ->
                       mae_daily_everywhere fr (StoresResults rows)) as Hstores.
  { intros rows Hrows. simpl. apply stores_results_rows in Hrows.
    eapply Forall_impl; [|exact Hrows].
    intros r (raw & Hraw & ->). now apply scenarios_mae_is_daily. }
  destruct per_store, per_store_item.
  - apply bind_Return in H as (rows & Hrows & H). injection H as <-. auto.
  - apply bind_Return in H as (rows & Hrows & H). injection H as <-. auto.
  - apply bind_Return in H as (rows & Hrows & H). injection H as <-.
    exists rows. split; [reflexivity|].
    apply items_results_rows in Hrows.
    eapply Forall_impl; [|exact Hrows].
    intros r (_ & Hmae & Hr).
    assert (MAE (snd r) = round_cell (Some (row_mae (group_rows fr (fst r)))))
      as Hcol by (rewrite Hr; reflexivity).
    split.
    + eexists. split; [exact Hmae | exact Hcol].
    + intros Hnd. eexists. split; [|exact Hcol].
      now apply daily_mae_distinct_dates.
  - apply bind_Return in H as (rows & Hrows & H). injection H as <-. simpl.
    unfold overall_results_df in Hrows.
    apply bind_Return in Hrows as (m & Hm & Hrows). injection Hrows as <-.
    repeat constructor. now apply scenarios_mae_is_daily.
Qed.

Lemma mae_aggregation_witness :
  exists rows,
    same_day_table = ItemsResults rows /\
    Forall (fun r =>
              mae_is_rowwise (group_rows same_day_fr (fst r)) (snd r) /\
              (NoDup (map date (group_rows same_day_fr (fst r))) ->
               mae_is_daily (group_rows same_day_fr (fst r)) (snd r)))
           rows.
Proof.
  apply (mae_aggregation same_day_data same_day_true same_day_pred false true).
  - exact same_day_fr_value.
  - exact same_day_value.
Defined.

(** ** What the average column holds in each mode *)




(** ** Where the working table is positional *)

Lemma existsb_range_above (a b n : nat) :
  (a < b)%nat ->
  existsb (Z.eqb (Z.of_nat a)) (map Z.of_nat (seq b n)) = false.
Proof.
  revert b. induction n as [| n IH]; intros b Hab; simpl; [reflexivity|].
  rewrite IH by lia.
  destruct (Z.eqb_spec (Z.of_nat a) (Z.of_nat b)); [lia | reflexivity].
Qed.

Lemma unique_labels_range (a n : nat) :
  unique_labels (map Z.of_nat (seq a n)) = true.
Proof.
  revert a. induction n as [| n IH]; intros a; simpl; [reflexivity|].
  now rewrite existsb_range_above, IH by lia.
Qed.

Lemma lookup_label_range (a : nat) (vs : list R) :
  map (lookup_label (combine (map Z.of_nat (seq a (length vs))) vs))
      (map Z.of_nat (seq a (length vs)))
  = map Some vs.
Proof.
  revert a. induction vs as [| v vs IH]; intros a; simpl; [reflexivity|].
  unfold lookup_label at 1. simpl. rewrite Z.eqb_refl. simpl. f_equal.
  rewrite <- (IH (S a)).
  apply map_ext_in. intros l Hl.
  apply in_map_iff in Hl as (i & <- & Hi). apply in_seq in Hi.
  unfold lookup_label. simpl.
  destruct (Z.eqb_spec (Z.of_nat a) (Z.of_nat i)); [lia | reflexivity].
Qed.

Lemma map_fst_combine {A B} (l : list A) (l' : list B) :
  length l = length l' -> map fst (combine l l') = l.
Proof.
  revert l'. induction l as [| a l IH]; intros [| b l'] H; simpl in *;
    try discriminate; [reflexivity|].
  f_equal. apply IH. lia.
Qed.

(** A Series labelled 0, 1, ... is taken by position. *)
Lemma set_column_range (vs : list R) :
  set_column (length vs) (series (combine (range_index (length vs)) vs))
  = Return (map Some vs).
Proof.
  unfold set_column, range_index.
  rewrite map_fst_combine by now rewrite length_map, length_seq.
  rewrite unique_labels_range. f_equal. apply lookup_label_range.
Qed.

Lemma series_map_combine (f : R -> R) (ls : list Z) (vs : list R) :
  series_map f (combine ls vs) = combine ls (map f vs).
Proof.
  revert vs. induction ls as [| l ls IH]; intros [| v vs]; simpl;
    try reflexivity.
  now rewrite <- IH.
Qed.

(** The sales column: the labels of [y_true] are reset, so the values are
    taken by position whatever the labels were. *)
Lemma sales_column_positional (n : nat) (y_true : Series) :
  length y_true = n ->
  set_column n (series (series_map expm1 (reset_index_drop y_true)))
  = Return (positional (map snd y_true)).
Proof.
  intros <-. unfold reset_index_drop, positional.
  rewrite series_map_combine.
  replace (length y_true) with (length (map expm1 (map snd y_true)))
    by now rewrite !length_map.
  rewrite set_column_range. now rewrite map_map.
Qed.

(** With predictions in an array of the right length, both columns are
    positional. *)
Lemma financial_results_positional data y_true (l : list R) :
  length y_true = length data -> length l = length data ->
  financial_results data y_true (ndarray l)
  = Return (attach data (positional (map snd y_true)) (positional l)).
Proof.
  intros Ht Hl. unfold financial_results.
  rewrite (sales_column_positional _ _ Ht). simpl.
  apply Nat.eqb_eq in Hl. rewrite length_map, Hl. simpl.
  unfold positional. now rewrite !map_map.
Qed.

(** * Further properties of the estimator *)

(** ** When a call returns a table *)

Lemma scenarios_nonempty (rows : list row) :
  rows <> [] -> exists m, scenarios rows = Return m.
Proof.
  intros Hne. unfold scenarios, daily_mae.
  rewrite mean_absolute_error_map; [simpl; eauto|].
  unfold groupby_date_sum. intros E. apply map_eq_nil in E.
  destruct rows as [| r rows]; [congruence|].
  assert (In (date r) (group_keys Z.eqb Z.ltb (map date (r :: rows)))) as Hin
      by (apply (group_keys_In _ Z.eqb Z.ltb Z.eqb_eq); now left).
  rewrite E in Hin. exact Hin.
Qed.

Lemma scenarios_empty : scenarios [] = Raise NoSamples.
Proof. reflexivity. Qed.

Lemma for_each_Return_all {E A B} (f : A -> outcome E B) (xs : list A) :
  (forall x, In x xs -> exists y, f x = Return y) ->
  exists ys, for_each f xs = Return ys.
Proof.
  induction xs as [| x xs IH]; simpl; intros H; [eauto|].
  destruct (H x (or_introl eq_refl)) as [y ->].
  destruct IH as [ys ->]; [intros a Ha; apply H; now right|].
  simpl. eauto.
Qed.

Lemma attach_length (keys : list data_row) (s p : list cell) :
  length s = length keys -> length p = length keys ->
  length (attach keys s p) = length keys.
Proof.
  revert s p. induction keys as [| k keys IH]; intros s p Hs Hp; [reflexivity|].
  destruct s as [| x s]; [discriminate|].
  destruct p as [| y p]; [discriminate|].
  simpl. f_equal. apply IH; simpl in *; lia.
Qed.

Lemma financial_results_length data y_true y_pred fr :
  financial_results data y_true y_pred = Return fr -> length fr = length data.
Proof.
  intros H. apply financial_results_Return in H as (s & p & Hs & Hp & ->).
  now apply attach_length.
Qed.

Lemma financial_results_stores data y_true y_pred fr :
  financial_results data y_true y_pred = Return fr ->
  map store fr = map d_store data.
Proof.
  intros H. apply financial_results_store_item in H.
  apply (f_equal (map fst)) in H. now rewrite !map_map in H.
Qed.

Lemma store_i_data_nonempty (fr : list row) (s : Z) :
  store_i_data fr s <> [] <-> In s (map store fr).
Proof.
  unfold store_i_data. split.
  - destruct (filter _ fr) as [| r rs] eqn:Hf; [congruence|]. intros _.
    assert (In r (filter (fun r => (store r =? s)%Z) fr)) as Hin
        by (rewrite Hf; now left).
    apply filter_In in Hin as [Hin Hst]. apply Z.eqb_eq in Hst.
    rewrite <- Hst. now apply in_map.
  - intros Hin E. apply in_map_iff in Hin as (r & Hr & Hin).
    assert (In r (filter (fun r => (store r =? s)%Z) fr)) as Hf
        by (apply filter_In; split; [exact Hin | now apply Z.eqb_eq]).
    rewrite E in Hf. exact Hf.
Qed.

(** X1: once the working table is built, a call in overall mode returns a
    table exactly when the data has at least one row. *)
Theorem overall_returns_iff data y_true y_pred fr :
  financial_results data y_true y_pred = Return fr ->
  ((exists t, estimate_financial_results data y_true y_pred false false
              = Return t)
   <-> data <> []).
Proof.
  intros Hfr. pose proof (financial_results_length _ _ _ _ Hfr) as Hlen.
  unfold estimate_financial_results, try_body, overall_results_df.
  rewrite Hfr. simpl. split.
  - intros [t Ht] ->. destruct fr; [|discriminate].
    rewrite scenarios_empty in Ht. discriminate.
  - intros Hne. destruct (scenarios_nonempty fr) as [m ->].
    + intros ->. destruct data; [congruence | discriminate].
    + simpl. eauto.
Qed.

Lemma overall_returns_iff_witness :
  (exists t, estimate_financial_results example_data example_true example_pred
               false false = Return t)
  <-> example_data <> [].
Proof.
  apply (overall_returns_iff example_data example_true example_pred
           (attach example_data (positional (map snd example_true))
              (positional [ln 2; ln 2]))).
  reflexivity.
Defined.

(** X2: once the working table is built, a call in per-store mode returns a
    table exactly when each store id from 1 to 10 has a row in the data. *)
Theorem per_store_returns_iff data y_true y_pred per_store_item fr :
  financial_results data y_true y_pred = Return fr ->
  ((exists t, estimate_financial_results data y_true y_pred true per_store_item
              = Return t)
   <-> forall s, (1 <= s <= 10)%Z -> In s (map d_store data)).
Proof.
  intros Hfr. pose proof (financial_results_stores _ _ _ _ Hfr) as Hst.
  unfold estimate_financial_results, try_body. rewrite Hfr. simpl. split.
  - intros [t Ht] s Hs.
    destruct (stores_results fr) as [rows | e] eqn:Hrows; [|discriminate].
    apply stores_results_Return in Hrows as (raws & _ & Hraws).
    rewrite <- Hst. apply store_i_data_nonempty. intros Hempty.
    apply store_ids_range in Hs. clear Ht.
    induction Hraws as [| s' r ss rs [_ Hr] _ IH]; [exact Hs|].
    destruct Hs as [<- | Hs]; [|now apply IH].
    rewrite Hempty, scenarios_empty in Hr. discriminate.
  - intros Hall. unfold stores_results.
    destruct (for_each_Return_all
                (fun store_id => m <- scenarios (store_i_data fr store_id) ;;
                                 Return (store_id, m)) store_ids)
      as [raws ->].
    + intros s Hs.
      destruct (scenarios_nonempty (store_i_data fr s)) as [m ->].
      * apply store_i_data_nonempty. rewrite Hst. apply Hall.
        simpl in Hs. lia.
      * simpl. eauto.
    + simpl. eauto.
Qed.

Lemma per_store_returns_iff_witness :
  exists t, estimate_financial_results ten_stores_data ten_stores_true
              ten_stores_pred true false = Return t.
Proof.
  apply (per_store_returns_iff ten_stores_data ten_stores_true ten_stores_pred
           false
           (attach ten_stores_data (positional (map snd ten_stores_true))
              (positional [0; 0; 0; 0; 0; 0; 0; 0; 0; 0]))).
  - reflexivity.
  - intros s Hs. simpl. lia.
Defined.

Lemma all_finite_Forall (c : list cell) :
  Forall (fun a => exists v, a = Some v) c -> exists vs, all_finite c = Some vs.
Proof.
  induction 1 as [| a c [v ->] _ [vs IH]]; simpl; [eauto|].
  rewrite IH. simpl. eauto.
Qed.

Lemma mean_absolute_error_finite (x : list row) :
  x <> [] -> Forall finite_row x ->
  exists m, mean_absolute_error (map sales x) (map predictions x) = Return m.
Proof.
  intros Hne Hfin.
  destruct (all_finite_Forall (map sales x)) as [ts Hts].
  { apply Forall_map. eapply Forall_impl; [|exact Hfin]. now intros r [H _]. }
  destruct (all_finite_Forall (map predictions x)) as [ps Hps].
  { apply Forall_map. eapply Forall_impl; [|exact Hfin]. now intros r [_ H]. }
  unfold mean_absolute_error.
  rewrite !length_map, Nat.eqb_refl, Hts, Hps. simpl.
  destruct ts as [| t ts]; [|eauto].
  destruct (all_finite_dropna _ _ Hts) as [_ Hl].
  rewrite length_map in Hl. destruct x; [congruence | discriminate].
Qed.

Lemma group_rows_own (fr : list row) (r : row) :
  In r fr -> In r (group_rows fr (store_item r)).
Proof.
  intros Hin. apply filter_In. split; [exact Hin | now apply pair_eqb_eq].
Qed.

Lemma mae_items_finite (fr : list row) :
  Forall finite_row fr -> exists maes, mae_items fr = Return maes.
Proof.
  intros Hfin. unfold mae_items. apply for_each_Return_all.
  intros k Hk.
  destruct (mean_absolute_error_finite (group_rows fr k)) as [m Hm].
  - now apply group_rows_nonempty.
  - unfold group_rows. apply Forall_forall. intros r Hr.
    apply filter_In in Hr as [Hr _].
    rewrite Forall_forall in Hfin. now apply Hfin.
  - simpl. rewrite Hm. simpl. eauto.
Qed.

Lemma items_results_finite (fr : list row) :
  Forall finite_row fr -> exists rows, items_results fr = Return rows.
Proof.
  intros Hfin. unfold items_results.
  destruct (mae_items_finite fr Hfin) as [maes ->]. simpl. eauto.
Qed.

(** X3: once the working table of a non-empty data frame is built, a call
    in per-store-item mode returns a table exactly when no sales or
    prediction entry of the table is NaN. *)
Theorem per_store_item_returns_iff data y_true y_pred fr :
  data <> [] ->
  financial_results data y_true y_pred = Return fr ->
  ((exists t, estimate_financial_results data y_true y_pred false true
              = Return t)
   <-> Forall finite_row fr).
Proof.
  intros _ Hfr. unfold estimate_financial_results, try_body.
  rewrite Hfr. cbn [bind]. split.
  - intros [t Ht].
    destruct (items_results fr) as [rows | e] eqn:Hrows; [|discriminate].
    apply items_results_Return in Hrows as [_ Hall].
    rewrite Forall_forall in Hall.
    apply Forall_forall. intros r Hr.
    assert (In (store_item r) (store_item_keys fr)) as Hk
        by (apply store_item_keys_In; now apply in_map).
    specialize (Hall _ Hk).
    apply mean_absolute_error_Return in Hall as (ts & ps & Hts & Hps & _ & _).
    pose proof (group_rows_own fr r Hr) as Hg. split.
    + exact (all_finite_In _ _ _ Hts (in_map sales _ _ Hg)).
    + exact (all_finite_In _ _ _ Hps (in_map predictions _ _ Hg)).
  - intros Hfin. destruct (items_results_finite fr Hfin) as [rows ->].
    simpl. eauto.
Qed.

Lemma per_store_item_returns_iff_witness :
  (exists t, estimate_financial_results same_day_data same_day_true
               same_day_pred false true = Return t)
  <-> Forall finite_row same_day_fr.
Proof.
  apply (per_store_item_returns_iff same_day_data same_day_true same_day_pred).
  - discriminate.
  - exact same_day_fr_value.
Defined.




(** ** Order of the per-store-item table *)

Lemma store_item_keys_sorted (fr : list row) :
  StronglySorted (fun a b => pair_ltb a b = true) (store_item_keys fr).
Proof.
  apply (group_keys_sorted _ pair_eqb pair_ltb).
  - exact pair_eqb_eq.
  - exact pair_ltb_trans.
  - exact pair_ltb_total.
Qed.

(** X5: the rows of a per-store-item table come in strictly increasing
    order of (store, item), stores compared first. *)
Theorem items_table_sorted data y_true y_pred rows :
  estimate_financial_results data y_true y_pred false true
  = Return (ItemsResults rows) ->
  keys_increasing rows.
Proof.
  intros H. apply try_except_Return in H. unfold try_body in H.
  apply bind_Return in H as (fr & _ & H). simpl in H.
  apply bind_Return in H as (rows' & Hrows & H). injection H as <-.
  apply items_results_Return in Hrows as [-> _].
  unfold keys_increasing. rewrite map_map. simpl. rewrite map_id.
  apply store_item_keys_sorted.
Qed.

Lemma items_table_sorted_witness :
  exists rows,
    estimate_financial_results unsorted_data unsorted_true unsorted_pred
      false true = Return (ItemsResults rows) /\
    map fst rows = [(1, 1); (1, 2); (2, 1)]%Z /\
    keys_increasing rows.
Proof.
  assert (exists rows,
             estimate_financial_results unsorted_data unsorted_true
               unsorted_pred false true = Return (ItemsResults rows) /\
             map fst rows = [(1, 1); (1, 2); (2, 1)]%Z)
    as (rows & Hrows & Hkeys) by (eexists; split; reflexivity).
  exists rows. split; [exact Hrows|]. split; [exact Hkeys|].
  apply (items_table_sorted unsorted_data unsorted_true unsorted_pred rows).
  exact Hrows.
Defined.

(** ** Stores the per-store loop does not visit *)

Lemma for_each_ext_in {E A B} (f g : A -> outcome E B) (xs : list A) :
  (forall x, In x xs -> f x = g x) -> for_each f xs = for_each g xs.
Proof.
  induction xs as [| x xs IH]; simpl; intros H; [reflexivity|].
  rewrite (H x (or_introl eq_refl)), IH; [reflexivity|].
  intros a Ha. apply H. now right.
Qed.

Lemma store_i_data_visited (fr : list row) (s : Z) :
  (1 <= s <= 10)%Z ->
  store_i_data (filter visited_store fr) s = store_i_data fr s.
Proof.
  intros Hs. unfold store_i_data.
  induction fr as [| r fr IH]; simpl; [reflexivity|].
  destruct (visited_store r) eqn:Hv; simpl; rewrite IH; [reflexivity|].
  destruct (Z.eqb_spec (store r) s) as [E | _]; [|reflexivity].
  unfold visited_store in Hv. rewrite E in Hv.
  destruct (Z.leb_spec 1 s), (Z.leb_spec s 10); simpl in Hv;
    try discriminate; lia.
Qed.

(** X6: rows of a store outside 1 .. 10 have no effect on the per-store
    table: removing them from the working table leaves the outcome of the
    per-store branch unchanged. *)
Theorem per_store_ignores_other_stores (fr : list row) :
  stores_results (filter visited_store fr) = stores_results fr.
Proof.
  unfold stores_results. f_equal.
  apply for_each_ext_in. intros s Hs.
  rewrite store_i_data_visited; [reflexivity|].
  simpl in Hs. lia.
Qed.

(** ** A forecast without error *)

Lemma mean_absolute_error_abs_err (x : list row) (e : R) :
  mean_absolute_error (map sales x) (map predictions x) = Return e ->
  e = Rsum (map abs_err x) / INR (length x).
Proof.
  intros He.
  pose proof (mean_absolute_error_Return _ _ _ He) as (ts & ps & Hts & Hps & _ & _).
  assert (length ts = length x) as Hlen.
  { destruct (all_finite_dropna _ _ Hts) as [_ ->]. apply length_map. }
  rewrite <- (rowwise_errors x _ _ Hts Hps), <- Hlen.
  unfold mean_absolute_error in He.
  rewrite !length_map, Nat.eqb_refl, Hts, Hps in He. simpl in He.
  destruct ts as [| t ts']; [discriminate|].
  injection He as <-. reflexivity.
Qed.

Lemma Rsum_zero {A} (f : A -> R) (l : list A) :
  (forall a, In a l -> f a = 0) -> Rsum (map f l) = 0.
Proof.
  induction l as [| a l IH]; simpl; intros H; [reflexivity|].
  rewrite (H a (or_introl eq_refl)), IH; [lra|].
  intros b Hb. apply H. now right.
Qed.

Lemma abs_err_perfect (r : row) : perfect_row r -> abs_err r = 0.
Proof.
  unfold perfect_row, abs_err. intros ->.
  destruct (predictions r) as [p|]; [|reflexivity].
  replace (p - p) with 0 by lra. apply Rabs_R0.
Qed.

Lemma daily_mae_perfect (rows : list row) (mae : R) :
  Forall perfect_row rows -> daily_mae rows = Return mae -> mae = 0.
Proof.
  intros Hp. unfold daily_mae.
  destruct (groupby_date_sum rows) as [| d ds] eqn:Hd; [discriminate|].
  rewrite <- Hd. rewrite mean_absolute_error_map by (rewrite Hd; discriminate).
  intros [= <-].
  rewrite Rsum_zero; [lra|].
  intros a Ha. unfold groupby_date_sum in Ha.
  apply in_map_iff in Ha as (k & <- & _). simpl.
  assert (map sales (filter (fun r => (date r =? k)%Z) rows)
          = map predictions (filter (fun r => (date r =? k)%Z) rows)) as ->.
  { apply map_ext_in. intros r Hr. apply filter_In in Hr as [Hr _].
    rewrite Forall_forall in Hp. now apply Hp. }
  replace (_ - _) with 0 by lra. apply Rabs_R0.
Qed.

Lemma collapsed_shape (total avg : R) :
  collapsed (round_metrics (scenario_metrics total avg 0)).
Proof.
  unfold collapsed, round_metrics, scenario_metrics. simpl.
  rewrite (round_half_even_IZR 0).
  replace (avg - 0) with avg by lra.
  replace (avg + 0) with avg by lra.
  replace (total - 0 * 93) with total by lra.
  replace (total + 0 * 93) with total by lra.
  repeat split.
Qed.

Lemma scenarios_perfect (rows : list row) (raw : metrics) :
  Forall perfect_row rows -> scenarios rows = Return raw ->
  collapsed (round_metrics raw).
Proof.
  intros Hp H. apply scenarios_Return in H as (mae & Hmae & _ & ->).
  rewrite (daily_mae_perfect rows mae Hp Hmae). apply collapsed_shape.
Qed.

Lemma attach_same_perfect (data : DataFrame) (c : list cell) :
  Forall perfect_row (attach data c c).
Proof.
  revert c. induction data as [| d data IH]; intros [| x c]; simpl;
    constructor; [reflexivity | apply IH].
Qed.

Lemma Forall_filter {A} (P : A -> Prop) (f : A -> bool) (l : list A) :
  Forall P l -> Forall P (filter f l).
Proof.
  intros H. apply Forall_forall. intros a Ha.
  apply filter_In in Ha as [Ha _]. rewrite Forall_forall in H. now apply H.
Qed.

(** X7: when the predictions are the true values themselves (given as an
    array, one value per row of the data), every row of the returned table,
    in every mode, has MAE 0, and its worst and best scenarios equal the
    average, resp. the total, predicted sales. *)
Theorem perfect_forecast data y_true per_store per_store_item t :
  length y_true = length data ->
  estimate_financial_results data y_true (ndarray (map snd y_true))
    per_store per_store_item = Return t ->
  Forall collapsed (metrics_of t).
Proof.
  intros Hlen H. apply try_except_Return in H. unfold try_body in H.
  rewrite (financial_results_positional data y_true (map snd y_true) Hlen)
    in H by now rewrite length_map.
  cbn [bind] in H.
  pose proof (attach_same_perfect data (positional (map snd y_true))) as Hp.
  set (fr := attach data _ _) in *.
  destruct per_store; [|destruct per_store_item].
  - apply bind_Return in H as (rows & Hrows & H). injection H as <-. simpl.
    apply stores_results_rows in Hrows. apply Forall_map.
    eapply Forall_impl; [|exact Hrows].
    intros r (raw & Hraw & ->).
    apply (scenarios_perfect (store_i_data fr (fst r))); [|exact Hraw].
    now apply Forall_filter.
  - apply bind_Return in H as (rows & Hrows & H). injection H as <-. simpl.
    apply items_results_rows in Hrows. apply Forall_map.
    eapply Forall_impl; [|exact Hrows].
    intros r (Hne & Hmae & ->).
    destruct (items_metrics_shape _ Hne Hmae) as [_ ->].
    apply mean_absolute_error_abs_err in Hmae. rewrite Hmae.
    rewrite Rsum_zero.
    + replace (0 / _) with 0 by (unfold Rdiv; lra). apply collapsed_shape.
    + intros a Ha. apply abs_err_perfect.
      apply filter_In in Ha as [Ha _].
      rewrite Forall_forall in Hp. now apply Hp.
  - apply bind_Return in H as (rows & Hrows & H). injection H as <-. simpl.
    unfold overall_results_df in Hrows.
    apply bind_Return in Hrows as (m & Hm & Hrows). injection Hrows as <-.
    constructor; [|constructor]. now apply (scenarios_perfect fr).
Qed.

Lemma perfect_forecast_witness :
  Forall collapsed (metrics_of single_row_table).
Proof.
  apply (perfect_forecast single_row_data single_row_true false true).
  - reflexivity.
  - exact single_row_value.
Defined.

(** ** Store totals against the overall total *)

Lemma nansum_cons (c : cell) (l : list cell) :
  nansum (c :: l) = cell_value c + nansum l.
Proof. destruct c; simpl; lra. Qed.

Lemma Rsum_plus {A} (f g : A -> R) (l : list A) :
  Rsum (map (fun a => f a + g a) l) = Rsum (map f l) + Rsum (map g l).
Proof. induction l as [| a l IH]; simpl; [lra | rewrite IH; lra]. Qed.

Lemma Rsum_indicator (s0 : Z) (c : R) (ids : list Z) :
  NoDup ids -> In s0 ids ->
  Rsum (map (fun s => if (s0 =? s)%Z then c else 0) ids) = c.
Proof.
  induction 1 as [| s ids Hnotin Hnd IH]; simpl; [tauto|].
  intros [-> | Hin].
  - rewrite Z.eqb_refl, Rsum_zero; [lra|].
    intros a Ha. destruct (Z.eqb_spec s0 a); [congruence | reflexivity].
  - rewrite (IH Hin).
    destruct (Z.eqb_spec s0 s); [congruence | lra].
Qed.

(** The predictions of a table split by store. *)
Lemma nansum_by_store (ids : list Z) (fr : list row) :
  NoDup ids -> Forall (fun r => In (store r) ids) fr ->
  nansum (map predictions fr)
  = Rsum (map (fun s => nansum (map predictions (store_i_data fr s))) ids).
Proof.
  intros Hnd. induction 1 as [| r fr Hr _ IH].
  - simpl. now rewrite Rsum_zero.
  - cbn [map]. rewrite nansum_cons, IH.
    rewrite <- (Rsum_indicator (store r) (cell_value (predictions r)) ids Hnd Hr).
    rewrite <- Rsum_plus. f_equal. apply map_ext. intros s.
    unfold store_i_data. simpl.
    destruct (store r =? s)%Z; [cbn [map]; now rewrite nansum_cons | lra].
Qed.

Lemma store_ids_NoDup : NoDup store_ids.
Proof.
  unfold store_ids. simpl.
  repeat (constructor; [simpl; intros H; repeat destruct H as [H | H]; lia|]).
  constructor.
Qed.

Lemma Rsum_round_close (l : list R) :
  Rsum l - INR (length l) / 2 <= Rsum (map round_half_even l)
  <= Rsum l + INR (length l) / 2.
Proof.
  induction l as [| x l IH].
  - simpl. lra.
  - cbn [map Rsum length]. rewrite S_INR.
    pose proof (round_half_even_within x). lra.
Qed.

Lemma stores_results_totals (fr : list row) (rows : list (Z * metrics)) :
  stores_results fr = Return rows ->
  map (fun r => cell_value (total_predicted_sales (snd r))) rows
  = map round_half_even
      (map (fun s => nansum (map predictions (store_i_data fr s))) store_ids).
Proof.
  intros H. apply stores_results_Return in H as (raws & -> & Hraws).
  rewrite !map_map.
  induction Hraws as [| s r ss rs [_ Hr] _ IH]; cbn [map]; [reflexivity|].
  rewrite IH. f_equal.
  apply scenarios_Return in Hr as (mae & _ & _ & Hr). now rewrite Hr.
Qed.

(** X8: when every row of the data belongs to a store from 1 to 10, the
    ten totals of the per-store table add up to the total of the overall
    table, up to the rounding of the eleven figures: the difference is at
    most 5.5. *)
Theorem store_totals_add_up data y_true y_pred per_store_item o rows :
  (forall r, In r data -> (1 <= d_store r <= 10)%Z) ->
  estimate_financial_results data y_true y_pred false false
  = Return (OverallResults [o]) ->
  estimate_financial_results data y_true y_pred true per_store_item
  = Return (StoresResults rows) ->
  Rabs (cell_value (total_predicted_sales o)
        - Rsum (map (fun r => cell_value (total_predicted_sales (snd r))) rows))
  <= 11 / 2.
Proof.
  intros Hstores Ho Hs.
  apply try_except_Return in Ho, Hs. unfold try_body in Ho, Hs.
  apply bind_Return in Ho as (fr & Hfr & Ho). rewrite Hfr in Hs.
  cbn [bind] in Hs, Ho.
  apply bind_Return in Ho as (orows & Horows & Ho). injection Ho as ->.
  apply bind_Return in Hs as (srows & Hsrows & Hs). injection Hs as <-.
  unfold overall_results_df in Horows.
  apply bind_Return in Horows as (m & Hm & Horows).
  injection Horows as <-.
  apply scenarios_Return in Hm as (mae & _ & _ & ->).
  rewrite (stores_results_totals fr srows Hsrows). simpl total_predicted_sales.
  simpl cell_value.
  rewrite (nansum_by_store store_ids fr store_ids_NoDup).
  - set (l := map _ store_ids).
    pose proof (Rsum_round_close l) as Hl.
    assert (length l = 10%nat) as Hlen by (unfold l; now rewrite length_map).
    rewrite Hlen in Hl. simpl INR in Hl.
    pose proof (round_half_even_within (Rsum l)) as Hw.
    unfold Rabs. destruct (Rcase_abs _); lra.
  - apply Forall_forall. intros r Hr. apply store_ids_range.
    apply financial_results_Return in Hfr as (sc & pc & _ & _ & ->).
    apply attach_In in Hr as (d & Hd & _ & -> & _). now apply Hstores.
Qed.

Lemma store_totals_add_up_witness :
  exists o rows,
    estimate_financial_results ten_stores_data ten_stores_true ten_stores_pred
      false false = Return (OverallResults [o]) /\
    estimate_financial_results ten_stores_data ten_stores_true ten_stores_pred
      true false = Return (StoresResults rows) /\
    Rabs (cell_value (total_predicted_sales o)
          - Rsum (map (fun r => cell_value (total_predicted_sales (snd r)))
                    rows))
    <= 11 / 2.
Proof.
  assert (exists o,
             estimate_financial_results ten_stores_data ten_stores_true
               ten_stores_pred false false = Return (OverallResults [o]))
    as [o Ho] by (eexists; reflexivity).
  assert (exists rows,
             estimate_financial_results ten_stores_data ten_stores_true
               ten_stores_pred true false = Return (StoresResults rows))
    as [rows Hrows] by (eexists; reflexivity).
  exists o, rows. split; [exact Ho|]. split; [exact Hrows|].
  apply (store_totals_add_up ten_stores_data ten_stores_true ten_stores_pred
           false o rows); [|exact Ho | exact Hrows].
  intros r Hr. simpl in Hr.
  repeat destruct Hr as [<- | Hr]; simpl; try lia.
Defined.

(** ** The order of the rows *)

Section SortedKeys.
Variable K : Type.
Variable ltb : K -> K -> bool.
Hypothesis ltb_irrefl : forall a, ltb a a = false.
Hypothesis ltb_trans :
  forall a b c, ltb a b = true -> ltb b c = true -> ltb a c = true.

End SortedKeys.

















(** * Properties of the forecast plots *)

(** ** The grid of subplots *)

Lemma item_of_indices (i : Z) :
  (i = 5 * row_index i + col_index i + 1)%Z.
Proof.
  unfold row_index, col_index.
  pose proof (Z.div_mod (i - 1) 5 ltac:(lia)). lia.
Qed.

(** X10: for every item from 1 to 50 the subplot indices stay inside the
    10 x 5 grid of axes, and the item is recovered from them. *)
Theorem subplot_in_grid (i : Z) :
  (1 <= i <= 50)%Z ->
  (0 <= row_index i < 10)%Z /\ (0 <= col_index i < 5)%Z /\
  (i = 5 * row_index i + col_index i + 1)%Z.
Proof.
  intros Hi. unfold row_index, col_index.
  pose proof (Z.div_mod (i - 1) 5 ltac:(lia)) as Hdm.
  pose proof (Z.mod_pos_bound (i - 1) 5 ltac:(lia)) as Hm.
  repeat split; lia.
Qed.

Lemma subplot_in_grid_witness :
  (0 <= row_index 50 < 10)%Z /\ (0 <= col_index 50 < 5)%Z /\
  (50 = 5 * row_index 50 + col_index 50 + 1)%Z.
Proof. apply (subplot_in_grid 50). lia. Defined.

(** X11: each of the 50 subplots is the subplot of exactly one item from 1
    to 50. *)
Theorem subplot_of_one_item (r c : Z) :
  (0 <= r < 10)%Z -> (0 <= c < 5)%Z ->
  exists i, (1 <= i <= 50)%Z /\ row_index i = r /\ col_index i = c /\
            forall j, (1 <= j <= 50)%Z -> row_index j = r ->
                      col_index j = c -> j = i.
Proof.
  intros Hr Hc. exists (5 * r + c + 1)%Z.
  assert (row_index (5 * r + c + 1) = r) as Hrow.
  { unfold row_index. replace (5 * r + c + 1 - 1)%Z with (c + r * 5)%Z by lia.
    rewrite Z.div_add by lia. rewrite Z.div_small; lia. }
  assert (col_index (5 * r + c + 1) = c) as Hcol.
  { unfold col_index. replace (5 * r + c + 1 - 1)%Z with (c + r * 5)%Z by lia.
    rewrite Z.mod_add by lia. apply Z.mod_small. lia. }
  repeat split; try lia; auto.
  intros j Hj Hjr Hjc.
  pose proof (item_of_indices j) as E. lia.
Qed.

Lemma subplot_of_one_item_witness :
  exists i, (1 <= i <= 50)%Z /\ row_index i = 9%Z /\ col_index i = 4%Z /\
            forall j, (1 <= j <= 50)%Z -> row_index j = 9%Z ->
                      col_index j = 4%Z -> j = i.
Proof. apply (subplot_of_one_item 9 4); lia. Defined.

(** ** What is drawn *)

(** The lines of the subplot of item [i]. *)
Lemma draw_store_fold (i : Z) (item_i : list plot_row) (stores : list Z)
    (ls : list line) (leg : list Z) :
  fold_left (draw_store i item_i) stores (ls, leg)
  = (ls ++ map (fun s => mk_line s (filter (fun r => (p_store r =? s)%Z) item_i))
             stores,
     if (i =? 1)%Z then leg ++ stores else leg).
Proof.
  revert ls leg. induction stores as [| s stores IH]; intros ls leg; simpl.
  - rewrite !app_nil_r. now destruct (i =? 1)%Z.
  - unfold draw_store at 2. simpl. rewrite IH.
    rewrite <- !app_assoc. simpl.
    destruct (i =? 1)%Z; [now rewrite <- app_assoc | reflexivity].
Qed.

Lemma draw_item_fold (table : list plot_row) (ids : list Z)
    (sps : list subplot) (leg : list Z) :
  fold_left (draw_item table) ids (sps, leg)
  = (sps ++ map (fun i =>
                   mk_subplot (row_index i) (col_index i) i
                     (map (fun s =>
                             mk_line s
                               (filter (fun r => (p_store r =? s)%Z)
                                  (filter (fun r => (p_item r =? i)%Z) table)))
                          (unique (map p_store
                                     (filter (fun r => (p_item r =? i)%Z)
                                        table)))))
                ids,
     leg ++ flat_map (fun i =>
                        if (i =? 1)%Z
                        then unique (map p_store
                                       (filter (fun r => (p_item r =? i)%Z)
                                          table))
                        else []) ids).
Proof.
  revert sps leg. induction ids as [| i ids IH]; intros sps leg; simpl.
  - now rewrite !app_nil_r.
  - unfold draw_item at 2. simpl. rewrite draw_store_fold. simpl.
    rewrite IH. rewrite <- !app_assoc. simpl.
    f_equal. destruct (i =? 1)%Z; [now rewrite <- app_assoc | reflexivity].
Qed.

Lemma unique_In (x : Z) (l : list Z) : In x (unique l) <-> In x l.
Proof.
  induction l as [| a l IH]; simpl; [tauto|].
  rewrite filter_In, IH, negb_true_iff, Z.eqb_neq.
  destruct (Z.eq_dec a x); intuition.
Qed.

Lemma unique_NoDup (l : list Z) : NoDup (unique l).
Proof.
  induction l as [| a l IH]; simpl; constructor.
  - rewrite filter_In, negb_true_iff, Z.eqb_neq. tauto.
  - now apply NoDup_filter.
Qed.

Lemma item_ids_range (i : Z) : In i item_ids <-> (1 <= i <= 50)%Z.
Proof.
  unfold item_ids. rewrite in_map_iff. split.
  - intros (n & <- & Hn). apply in_seq in Hn. lia.
  - intros Hi. exists (Z.to_nat i). split; [lia|]. apply in_seq. lia.
Qed.

(** X12: a row is given to a line of a subplot exactly when it is a row of
    the table whose item, between 1 and 50, is the item of the subplot and
    whose store is the store of the line; the subplot sits at the grid
    place of its item.  Rows of other items are never drawn. *)
Theorem drawn_rows (table : list plot_row) (sp : subplot) (l : line)
    (r : plot_row) :
  In sp (fst (plot_plan table)) -> In l (sp_lines sp) ->
  (1 <= sp_item sp <= 50)%Z /\
  sp_row sp = row_index (sp_item sp) /\ sp_col sp = col_index (sp_item sp) /\
  (In r (line_data l)
   <-> In r table /\ p_item r = sp_item sp /\ p_store r = line_store l).
Proof.
  unfold plot_plan. rewrite draw_item_fold. cbn [fst app].
  intros Hsp Hl.
  apply in_map_iff in Hsp as (i & <- & Hi). simpl in *.
  apply item_ids_range in Hi.
  apply in_map_iff in Hl as (s & <- & _). simpl.
  split; [exact Hi|]. split; [reflexivity|]. split; [reflexivity|].
  rewrite !filter_In, !Z.eqb_eq. tauto.
Qed.

Lemma sample_subplot_drawn : In sample_subplot (fst (plot_plan sample_plot_data)).
Proof.
  unfold plot_plan. rewrite draw_item_fold. cbn [fst app].
  apply in_map_iff. exists 1%Z. split; [reflexivity|].
  apply item_ids_range. lia.
Qed.

Lemma drawn_rows_witness :
  (1 <= sp_item sample_subplot <= 50)%Z /\
  sp_row sample_subplot = row_index (sp_item sample_subplot) /\
  sp_col sample_subplot = col_index (sp_item sample_subplot) /\
  (In (mk_plot_row 1 1 2 (Some 5) (Some 4)) (line_data sample_line)
   <-> In (mk_plot_row 1 1 2 (Some 5) (Some 4)) sample_plot_data /\
       p_item (mk_plot_row 1 1 2 (Some 5) (Some 4)) = sp_item sample_subplot /\
       p_store (mk_plot_row 1 1 2 (Some 5) (Some 4)) = line_store sample_line).
Proof.
  apply (drawn_rows sample_plot_data sample_subplot sample_line).
  - exact sample_subplot_drawn.
  - simpl. now left.
Defined.

(** X13: every row of the table whose item is between 1 and 50 is drawn,
    in one line only: the line of its store on the subplot of its item. *)
Theorem every_row_drawn_once (table : list plot_row) (r : plot_row) :
  In r table -> (1 <= p_item r <= 50)%Z ->
  exists sp l,
    In sp (fst (plot_plan table)) /\ In l (sp_lines sp) /\
    In r (line_data l) /\
    sp_item sp = p_item r /\ line_store l = p_store r /\
    forall sp' l',
      In sp' (fst (plot_plan table)) -> In l' (sp_lines sp') ->
      In r (line_data l') -> sp' = sp /\ l' = l.
Proof.
  intros Hr Hi. unfold plot_plan. rewrite draw_item_fold. cbn [fst app].
  set (item_rows := fun i => filter (fun r => (p_item r =? i)%Z) table).
  set (line_of := fun i s =>
                    mk_line s (filter (fun r => (p_store r =? s)%Z) (item_rows i))).
  set (subplot_of := fun i =>
                       mk_subplot (row_index i) (col_index i) i
                         (map (line_of i) (unique (map p_store (item_rows i))))).
  exists (subplot_of (p_item r)), (line_of (p_item r) (p_store r)).
  assert (In r (item_rows (p_item r))) as Hir
      by (apply filter_In; split; [exact Hr | apply Z.eqb_refl]).
  repeat split.
  - apply in_map_iff. exists (p_item r). split; [reflexivity|].
    now apply item_ids_range.
  - simpl. apply in_map. apply unique_In. now apply in_map.
  - simpl. apply filter_In. split; [exact Hir | apply Z.eqb_refl].
  - apply in_map_iff in H as (i & <- & _). simpl in H0, H1.
    apply in_map_iff in H0 as (s & <- & _). simpl in H1.
    apply filter_In in H1 as [H1 _]. apply filter_In in H1 as [_ H1].
    apply Z.eqb_eq in H1. now subst i.
  - apply in_map_iff in H as (i & <- & _). simpl in H0, H1.
    apply in_map_iff in H0 as (s & <- & _). simpl in H1.
    apply filter_In in H1 as [H1 Hs]. apply filter_In in H1 as [_ H1].
    apply Z.eqb_eq in H1, Hs. now subst i s.
Qed.

Lemma every_row_drawn_once_witness :
  exists sp l,
    In sp (fst (plot_plan sample_plot_data)) /\ In l (sp_lines sp) /\
    In (mk_plot_row 0 7 1 (Some 2) (Some 2)) (line_data l) /\
    sp_item sp = p_item (mk_plot_row 0 7 1 (Some 2) (Some 2)) /\
    line_store l = p_store (mk_plot_row 0 7 1 (Some 2) (Some 2)) /\
    forall sp' l',
      In sp' (fst (plot_plan sample_plot_data)) -> In l' (sp_lines sp') ->
      In (mk_plot_row 0 7 1 (Some 2) (Some 2)) (line_data l') ->
      sp' = sp /\ l' = l.
Proof.
  apply (every_row_drawn_once sample_plot_data).
  - simpl. auto.
  - simpl. lia.
Defined.

(** ** The legend *)

(** X14: the legend labels collected by the loop are the distinct stores of
    the rows of item 1, each once, in the order in which they first appear
    in the table; the other items add nothing to the legend. *)
Theorem legend_of_item_one (table : list plot_row) :
  snd (plot_plan table)
  = unique (map p_store (filter (fun r => (p_item r =? 1)%Z) table)) /\
  NoDup (snd (plot_plan table)) /\
  forall s, In s (snd (plot_plan table))
            <-> exists r, In r table /\ p_item r = 1%Z /\ p_store r = s.
Proof.
  assert (snd (plot_plan table)
          = unique (map p_store (filter (fun r => (p_item r =? 1)%Z) table)))
    as E.
  { unfold plot_plan. rewrite draw_item_fold. cbn [snd app].
    unfold item_ids. simpl. now rewrite app_nil_r. }
  rewrite E. split; [reflexivity|]. split; [apply unique_NoDup|].
  intros s. rewrite unique_In, in_map_iff. split.
  - intros (r & Hs & Hr). apply filter_In in Hr as [Hr Hi].
    apply Z.eqb_eq in Hi. eauto.
  - intros (r & Hr & Hi & Hs). exists r. split; [exact Hs|].
    apply filter_In. split; [exact Hr | now apply Z.eqb_eq].
Qed.

(** * Further properties of the working table *)

Lemma nth_error_attach (keys : list data_row) (s p : list cell) (i : nat)
    (d : data_row) (x y : cell) :
  nth_error keys i = Some d -> nth_error s i = Some x ->
  nth_error p i = Some y ->
  nth_error (attach keys s p) i
  = Some (mk_row (d_date d) (d_store d) (d_item d) x y).
Proof.
  revert s p i. induction keys as [| k keys IH]; intros s p i Hd Hx Hy.
  - destruct i; discriminate.
  - destruct s as [| a s]; [destruct i; discriminate|].
    destruct p as [| b p]; [destruct i; discriminate|].
    destruct i as [| i]; simpl in *.
    + now injection Hd as ->; injection Hx as ->; injection Hy as ->.
    + now apply IH.
Qed.

(** X15: when [y_true] has one value per row of the data and the
    predictions come as an array of the same length, row [i] of the working
    table carries the date, store and item of row [i] of the data, whatever
    the index labels of the data and of [y_true] are, with sales
    [exp t - 1] and prediction [exp p - 1] for the [i]-th true and
    predicted values [t] and [p]. *)
Theorem working_table_row data y_true (l : list R) (i : nat)
    (d : data_row) (e : Z * R) (p : R) :
  length y_true = length data -> length l = length data ->
  nth_error data i = Some d -> nth_error y_true i = Some e ->
  nth_error l i = Some p ->
  exists fr,
    financial_results data y_true (ndarray l) = Return fr /\
    nth_error fr i
    = Some (mk_row (d_date d) (d_store d) (d_item d)
              (Some (exp (snd e) - 1)) (Some (exp p - 1))).
Proof.
  intros Ht Hl Hd He Hp. eexists.
  split; [now apply financial_results_positional|].
  apply nth_error_attach; [exact Hd | |].
  - unfold positional. rewrite map_map.
    now rewrite (map_nth_error _ _ _ He).
  - unfold positional. now rewrite (map_nth_error _ _ _ Hp).
Qed.

Lemma working_table_row_witness :
  exists fr,
    financial_results same_day_data same_day_true (ndarray [ln 2; ln 2])
    = Return fr /\
    nth_error fr 1
    = Some (mk_row 1 1 1 (Some (exp (ln 3) - 1)) (Some (exp (ln 2) - 1))).
Proof.
  apply (working_table_row same_day_data same_day_true [ln 2; ln 2] 1
           (mk_data_row 1 1 1 1) (1%Z, ln 3) (ln 2)); reflexivity.
Defined.

(** X16: when [y_true] has one value per row of a non-empty data frame and
    the predictions come as an array of another length, the call raises the
    wrapped length error, in every mode. *)
Theorem wrong_length_array_raises data y_true (l : list R)
    per_store per_store_item :
  data <> [] ->
  length y_true = length data -> length l <> length data ->
  estimate_financial_results data y_true (ndarray l) per_store per_store_item
  = Raise (CustomException_from LengthMismatch).
Proof.
  intros _ Ht Hl.
  unfold estimate_financial_results, try_body, financial_results.
  rewrite (sales_column_positional _ _ Ht). cbn [bind].
  unfold values_map, set_column. rewrite length_map.
  apply Nat.eqb_neq in Hl. rewrite Hl. reflexivity.
Qed.

Lemma wrong_length_array_raises_witness :
  estimate_financial_results example_data example_true (ndarray [ln 2])
    false false
  = Raise (CustomException_from LengthMismatch).
Proof.
  apply (wrong_length_array_raises example_data example_true [ln 2]).
  - discriminate.
  - reflexivity.
  - simpl. lia.
Defined.

(** ** Data keyed by date, store and item *)

Lemma attach_row_key (keys : list data_row) (s p : list cell) :
  length s = length keys -> length p = length keys ->
  map row_key (attach keys s p) = map data_key keys.
Proof.
  revert s p. induction keys as [| k keys IH]; intros s p Hs Hp; [reflexivity|].
  destruct s as [| x s]; [discriminate|].
  destruct p as [| y p]; [discriminate|].
  simpl. f_equal. apply IH; simpl in *; lia.
Qed.

Lemma group_dates_NoDup (fr : list row) (k : Z * Z) :
  NoDup (map row_key fr) -> NoDup (map date (group_rows fr k)).
Proof.
  induction fr as [| r fr IH]; simpl; intros Hnd; [constructor|].
  inversion Hnd as [| ? ? Hnotin Hnd']; subst.
  destruct (pair_eqb (store_item r) k) eqn:E; [|now apply IH].
  simpl. constructor; [|now apply IH].
  intros Hin. apply Hnotin.
  apply in_map_iff in Hin as (r' & Hdate & Hr').
  apply filter_In in Hr' as [Hr' Hk].
  apply pair_eqb_eq in E, Hk.
  apply in_map_iff. exists r'. split; [|exact Hr'].
  unfold row_key. unfold store_item in E, Hk.
  rewrite <- E in Hk. injection Hk as Hs Hi. congruence.
Qed.

(** X17: when no two rows of the data have the same date, store and item,
    the reported MAE is the day-grouped MAE in every mode, per-store-item
    mode included. *)
Theorem keyed_data_mae_daily data y_true y_pred per_store per_store_item fr t :
  NoDup (map data_key data) ->
  financial_results data y_true y_pred = Return fr ->
  estimate_financial_results data y_true y_pred per_store per_store_item
  = Return t ->
  mae_daily_everywhere fr t.
Proof.
  intros Hkey Hfr H.
  assert (NoDup (map row_key fr)) as Hnd.
  { pose proof Hfr as Hfr'.
    apply financial_results_Return in Hfr' as (s & p & Hs & Hp & ->).
    now rewrite attach_row_key. }
  apply try_except_Return in H. unfold try_body in H.
  rewrite Hfr in H. cbn [bind] in H.
  destruct per_store; [|destruct per_store_item].
  - apply bind_Return in H as (rows & Hrows & H). injection H as <-. simpl.
    apply stores_results_rows in Hrows.
    eapply Forall_impl; [|exact Hrows].
    intros r (raw & Hraw & ->). now apply scenarios_mae_is_daily.
  - apply bind_Return in H as (rows & Hrows & H). injection H as <-. simpl.
    apply items_results_rows in Hrows.
    eapply Forall_impl; [|exact Hrows].
    intros r (_ & Hmae & Hr).
    exists (row_mae (group_rows fr (fst r))). split.
    + apply daily_mae_distinct_dates; [|exact Hmae].
      now apply group_dates_NoDup.
    + rewrite Hr. reflexivity.
  - apply bind_Return in H as (rows & Hrows & H). injection H as <-. simpl.
    unfold overall_results_df in Hrows.
    apply bind_Return in Hrows as (m & Hm & Hrows). injection Hrows as <-.
    constructor; [|constructor]. now apply scenarios_mae_is_daily.
Qed.

Lemma keyed_data_mae_daily_witness :
  mae_daily_everywhere single_row_fr single_row_table.
Proof.
  apply (keyed_data_mae_daily single_row_data single_row_true single_row_pred
           false true).
  - simpl. constructor; [simpl; tauto | constructor].
  - exact single_row_fr_value.
  - exact single_row_value.
Defined.
